(** * Chatbot-AppLab backend: a shallow embedding of [backend/API.py]

    The first half of the file embeds the module top to bottom: the string
    helpers the handlers rely on, [chunk_text], [allowed_file],
    [extract_text_from_pdf], [store_in_chromadb], [query_chromadb],
    [generate_response] and the request handlers of the blueprint. The
    second half states and proves the properties of the specification.

    Conventions.
    - A Python [str] is a list of Unicode code points ([N]); [len] is the
      length of that list.
    - Python integers are [Z]; slices follow the interpreter's clamping rules.
    - A call that may raise returns [Exc]; [Raise] carries [str(e)]. The
      handlers' catch-all [except Exception] turns it into a 500 response.
    - The vector index is the list of stored records in insertion order, the
      upload folder a finite map from paths to files; operations on both
      are total.
    - The libraries the module calls into (werkzeug's [secure_filename],
      [str.lower], the nearest-neighbour query, the generative model) are
      section variables; the string drawn by [uuid.uuid4()] is an argument
      of the call that draws it.
    - The [while] loop of [chunk_text] runs on fuel; [None] stands for a loop
      that does not come back. *)

From Stdlib Require Import ZArith Lia String Ascii DecimalString DecimalNat.
From stdpp Require Import base tactics option list numbers gmap.

Local Open Scope Z_scope.

(** ** Strings *)

Abbreviation char := N (only parsing).
Abbreviation str := (list N) (only parsing).

(** An ASCII literal of the source as a [str]. *)
Definition lit (s : string) : str := N_of_ascii <$> list_ascii_of_string s.
Arguments lit s%_string.

Definition py_len {A} (s : list A) : Z := Z.of_nat (length s).

(** Index adjustment of a slice bound ([PySlice_AdjustIndices], step 1). *)
Definition adjust_index (n i : Z) : Z :=
  if i <? 0 then Z.max (i + n) 0 else Z.min i n.

(** [s[start:stop]]. *)
Definition py_slice {A} (s : list A) (start stop : Z) : list A :=
  let n := py_len s in
  let lo := adjust_index n start in
  let hi := adjust_index n stop in
  take (Z.to_nat (hi - lo)) (drop (Z.to_nat lo) s).

(** [str.isspace] on one code point (the interpreter's whitespace table). *)
Definition is_space (c : char) : bool :=
  ((9 <=? c) && (c <=? 13) || (28 <=? c) && (c <=? 32) || (c =? 133)
   || (c =? 160) || (c =? 5760) || (8192 <=? c) && (c <=? 8202)
   || (c =? 8232) || (c =? 8233) || (c =? 8239) || (c =? 8287)
   || (c =? 12288))%N.

Fixpoint lstrip (s : str) : str :=
  match s with
  | c :: s' => if is_space c then lstrip s' else s
  | [] => []
  end.

Definition rstrip (s : str) : str := rev (lstrip (rev s)).

(** [s.strip()]. *)
Definition strip (s : str) : str := rstrip (lstrip s).

(** [sep.join(parts)]. *)
Fixpoint join (sep : str) (parts : list str) : str :=
  match parts with
  | [] => []
  | [p] => p
  | p :: ps => p ++ sep ++ join sep ps
  end.

(** Truth value of a string or list: non-empty. *)
Definition truthy {A} (l : list A) : bool :=
  match l with [] => false | _ => true end.

(** ** [chunk_text] *)

Fixpoint chunk_loop (fuel : nat) (text : str) (chunk_size overlap : Z)
    (start : Z) (chunks : list str) : option (list str) :=
  match fuel with
  | O => None
  | S fuel' =>
      if start <? py_len text then
        let end_ := start + chunk_size in
        let chunk := py_slice text start end_ in
        chunk_loop fuel' text chunk_size overlap
          (start + (chunk_size - overlap)) (chunks ++ [chunk])
      else Some chunks
  end.

(** One unit of fuel per character and one for the last test: enough whenever
    the stride [chunk_size - overlap] is positive. *)
Definition chunk_text (text : str) (chunk_size overlap : Z)
    : option (list str) :=
  chunk_loop (S (length text)) text chunk_size overlap 0 [].

Definition default_chunk_size : Z := 1000.
Definition default_overlap : Z := 200.

(** Window [i] of the default chunking: the characters of [text] at
    positions [800 i .. 800 i + 999] that exist. *)
Definition window (text : str) (i : nat) : str :=
  take 1000 (drop (i * 800) text).

(** The number of [i] with [800 i < n]. *)
Definition window_count (n : nat) : nat := Nat.div (n + 799) 800.

Definition windows (text : str) : list str :=
  window text <$> seq 0 (window_count (length text)).

(** ** Exceptions *)

Inductive Exc (A : Type) : Type :=
  | Ok (a : A)
  | Raise (msg : str).
Arguments Ok {A} a.
Arguments Raise {A} msg.

Definition exc_bind {A B} (x : Exc A) (f : A → Exc B) : Exc B :=
  match x with
  | Ok a => f a
  | Raise e => Raise e
  end.

(** ** Small pieces of the runtime *)

Definition newline : str := [10%N].
Definition dot : char := 46%N.
Definition slash : char := 47%N.

(** [str(i)] for a non-negative integer. *)
Definition decimal (i : nat) : str :=
  lit (NilEmpty.string_of_uint (Nat.to_uint i)).

(** Where the last [sep] of [s] cuts it, if [sep] occurs. *)
Fixpoint split_last (sep : char) (s : str) : option (str * str) :=
  match s with
  | [] => None
  | c :: s' =>
      match split_last sep s' with
      | Some (a, b) => Some (c :: a, b)
      | None => if (c =? sep)%N then Some ([], s') else None
      end
  end.

(** [s.rsplit(sep, 1)] for a one-character separator. *)
Definition rsplit1 (sep : char) (s : str) : list str :=
  match split_last sep s with
  | Some (a, b) => [a; b]
  | None => [s]
  end.

(** [os.path.join(a, b)] (posixpath). *)
Definition os_path_join (a b : str) : str :=
  if bool_decide (head b = Some slash) then b
  else if negb (truthy a) || bool_decide (last a = Some slash) then a ++ b
  else a ++ [slash] ++ b.

(** ** Files and the upload folder *)

(** A PDF as the two readers see it: the outcome of [PyPDF2.PdfReader] and of
    [extract_text] on each page; the outcome of the OCR route (imports and
    [fitz.open], then pixmap and [image_to_string] on each page, then
    [doc.close]). *)
Record Pdf : Type := {
  text_layer : Exc (list (Exc str));
  ocr_layer : Exc (list (Exc str));
  ocr_close : Exc unit
}.

(** ** The vector index *)

Record Metadata : Type := {
  filename : str;
  doc_id : str;
  chunk_index : nat
}.

Record Entry : Type := {
  chunk_id : str;
  document : str;
  metadata : Metadata
}.

(** The module globals [collection] and the folder [UPLOAD_FOLDER] names. *)
Record World : Type := {
  collection : option (list Entry);
  upload_dir : gmap str Pdf
}.

Definition set_collection (w : World) (c : list Entry) : World :=
  {| collection := Some c; upload_dir := upload_dir w |}.

Definition set_upload_dir (w : World) (d : gmap str Pdf) : World :=
  {| collection := collection w; upload_dir := d |}.

(** [collection.add]: the new records follow the stored ones. The handlers
    only pass a non-empty batch under a freshly drawn [doc_id]. *)
Definition collection_add (c new : list Entry) : list Entry := c ++ new.

(** [collection.delete(ids=...)]. *)
Definition collection_delete (c : list Entry) (ids : list str) : list Entry :=
  filter (λ e, chunk_id e ∉ ids) c.

(** ** Requests and responses *)

Record FileStorage : Type := {
  file_filename : str;
  file_content : Pdf
}.

(** [request.get_json()]: nothing usable, or an object with or without the
    key [question]. *)
Inductive ChatBody : Type :=
  | NoBody
  | Body (question : option str).

Inductive Json : Type :=
  | JError (error : str)
  | JHealth (status : str) (gemini_configured chromadb_configured : bool)
  | JUpload (message filename doc_id : str) (chunks text_length : Z)
  | JChat (answer : str) (sources : list str)
  | JDocuments (documents : list (str * str))
  | JDelete (message filename : str) (chunks_deleted : Z).

(** What a handler returns: [jsonify(body), status]. *)
Abbreviation Response := (Json * Z)%type (only parsing).

(** ** [extract_text_from_pdf] *)

Fixpoint read_pages (pages : list (Exc str)) (text : str) : Exc str :=
  match pages with
  | [] => Ok text
  | Ok page_text :: rest =>
      read_pages rest
        (if truthy page_text then text ++ page_text ++ newline else text)
  | Raise e :: _ => Raise e
  end.

Fixpoint ocr_pages (pages : list (Exc str)) (ocr_text : str) : Exc str :=
  match pages with
  | [] => Ok ocr_text
  | Ok page_text :: rest => ocr_pages rest (ocr_text ++ page_text ++ newline)
  | Raise e :: _ => Raise e
  end.

(** The body of the inner [try], up to [doc.close()]. *)
Definition ocr_pass (pdf : Pdf) : Exc str :=
  exc_bind (ocr_layer pdf) (λ pages,
  exc_bind (ocr_pages pages []) (λ ocr_text,
  exc_bind (ocr_close pdf) (λ _, Ok ocr_text))).

(** The body of the outer [try], up to the first log line. *)
Definition primary_pass (pdf : Pdf) : Exc str :=
  exc_bind (text_layer pdf) (λ pages, read_pages pages []).

Definition extract_text_from_pdf (dir : gmap str Pdf) (pdf_path : str)
    : Exc str :=
  match dir !! pdf_path with
  | None =>
      Raise (lit "[Errno 2] No such file or directory: '" ++ pdf_path ++ lit "'")
  | Some pdf =>
      match primary_pass pdf with
      | Raise e => Raise e
      | Ok text =>
          if py_len (strip text) <? 50 then
            match ocr_pass pdf with
            | Ok ocr_text =>
                if py_len (strip ocr_text) >? py_len (strip text)
                then Ok ocr_text else Ok text
            | Raise _ => Ok text
            end
          else Ok text
      end
  end.

(** ** The handlers *)

Section Handlers.

(** [werkzeug.utils.secure_filename]. *)
Variable secure_filename : str → str.
(** [str.lower]. *)
Variable lower : str → str.
(** [collection.query(query_texts=[q], n_results=n)] on the stored records:
    the records of the answer, nearest first. *)
Variable query : list Entry → str → nat → list Entry.
(** The module global [model]: [None], or [generate_content] followed by
    [.text]. *)
Variable model : option (str → Exc str).
(** [app_config['UPLOAD_FOLDER']]. *)
Variable UPLOAD_FOLDER : str.

Definition ALLOWED_EXTENSIONS : list str := [lit "pdf"].

Definition allowed_file (name : str) : bool :=
  bool_decide (dot ∈ name)
  && match rsplit1 dot name !! 1%nat with
     | Some ext => bool_decide (lower ext ∈ ALLOWED_EXTENSIONS)
     | None => false
     end.

Definition new_entry (doc filename_ : str) (i : nat) (chunk : str) : Entry :=
  {| chunk_id := doc ++ lit "_chunk_" ++ decimal i;
     document := chunk;
     metadata := {| filename := filename_; doc_id := doc; chunk_index := i |} |}.

(** [uuid4] is the string [str(uuid.uuid4())] drawn by this call. *)
Definition store_in_chromadb (uuid4 text filename_ : str) (w : World)
    : option (Exc (str * Z) * World) :=
  match collection w with
  | None => Some (Raise (lit "ChromaDB collection not initialized"), w)
  | Some c =>
      match chunk_text text default_chunk_size default_overlap with
      | None => None
      | Some chunks =>
          let doc := uuid4 in
          let entries := imap (new_entry doc filename_) chunks in
          Some (Ok (doc, py_len chunks),
                set_collection w (collection_add c entries))
      end
  end.

Definition query_chromadb (query_text : str) (n_results : nat) (w : World)
    : Exc (list Entry) :=
  match collection w with
  | None => Raise (lit "ChromaDB collection not initialized")
  | Some c => Ok (query c query_text n_results)
  end.

Definition prompt_of (question context : str) : str :=
  lit "You are a helpful AI assistant. Answer the user's question based on the provided context."
  ++ newline
  ++ lit "If the answer cannot be found in the context, say so politely."
  ++ newline ++ newline
  ++ lit "Context:" ++ newline
  ++ context ++ newline ++ newline
  ++ lit "Question: " ++ question ++ newline ++ newline
  ++ lit "Answer:".

Definition generate_response (question context : str) : str :=
  match model with
  | None =>
      lit "Error: Gemini API is not configured. Please set GEMINI_API_KEY environment variable."
  | Some generate =>
      match generate (prompt_of question context) with
      | Ok text => text
      | Raise e => lit "Error generating response: " ++ e
      end
  end.

Definition health_check (w : World) : Json :=
  JHealth (lit "healthy") (bool_decide (is_Some model))
    (bool_decide (is_Some (collection w))).

Definition duplicate_message : str :=
  lit "File already uploaded. Please delete the existing file first or upload a different file.".

(** The scan of [all_docs['metadatas']] in the duplicate check. *)
Definition filename_stored (filename_ : str) (w : World) : bool :=
  match collection w with
  | Some c => existsb (λ e, bool_decide (filename (metadata e) = filename_)) c
  | None => false
  end.

Definition upload_document (uuid4 : str) (file_ : option FileStorage)
    (w : World) : option (Response * World) :=
  match file_ with
  | None => Some ((JError (lit "No file provided"), 400), w)
  | Some file =>
      if negb (truthy (file_filename file)) then
        Some ((JError (lit "No file selected"), 400), w)
      else if negb (allowed_file (file_filename file)) then
        Some ((JError (lit "Only PDF files are allowed"), 400), w)
      else
        let filename_ := secure_filename (file_filename file) in
        if filename_stored filename_ w then
          Some ((JError duplicate_message, 400), w)
        else
          let filepath := os_path_join UPLOAD_FOLDER filename_ in
          let w1 :=
            set_upload_dir w (<[filepath := file_content file]> (upload_dir w)) in
          match extract_text_from_pdf (upload_dir w1) filepath with
          | Raise e => Some ((JError e, 500), w1)
          | Ok text =>
              if negb (truthy (strip text)) then
                Some ((JError (lit "No text could be extracted from PDF"), 400),
                      set_upload_dir w1 (delete filepath (upload_dir w1)))
              else
                match store_in_chromadb uuid4 text filename_ w1 with
                | None => None
                | Some (Raise e, w2) => Some ((JError e, 500), w2)
                | Some (Ok (doc, num_chunks), w2) =>
                    Some ((JUpload
                             (lit "Document uploaded and processed successfully")
                             filename_ doc num_chunks (py_len text), 200), w2)
                end
          end
  end.

Definition no_documents_answer : str :=
  lit "I don't have any documents to reference. Please upload a PDF document first.".

(** The loop over [results['metadatas'][0]] with its [seen_files] set. *)
Fixpoint collect_sources (metas : list Metadata) (sources : list str)
    : list str :=
  match metas with
  | [] => sources
  | m :: rest =>
      collect_sources rest
        (if bool_decide (filename m ∈ sources) then sources
         else sources ++ [filename m])
  end.

(** The [context] that [chat] builds from [results['documents'][0]]. *)
Definition context_of (results : list Entry) : str :=
  let documents := document <$> results in
  if truthy documents then join (newline ++ newline) documents else [].

Definition chat (body : ChatBody) (w : World) : Response :=
  match body with
  | NoBody | Body None => (JError (lit "No question provided"), 400)
  | Body (Some question) =>
      match query_chromadb question 5 w with
      | Raise e => (JError e, 500)
      | Ok results =>
          let context := context_of results in
          if negb (truthy context) then
            (JChat no_documents_answer [], 200)
          else
            let answer := generate_response question context in
            let sources := collect_sources (metadata <$> results) [] in
            (JChat answer sources, 200)
      end
  end.

(** The loop of [list_documents] over the metadata; [unique_docs] keeps the
    insertion order of the dictionary. *)
Fixpoint unique_docs_loop (metas : list Metadata)
    (unique_docs : list (str * str)) : list (str * str) :=
  match metas with
  | [] => unique_docs
  | m :: rest =>
      unique_docs_loop rest
        (if truthy (filename m) && truthy (doc_id m)
            && negb (bool_decide (doc_id m ∈ unique_docs.*1))
         then unique_docs ++ [(doc_id m, filename m)]
         else unique_docs)
  end.

Definition list_documents (w : World) : Response :=
  match collection w with
  | None => (JDocuments [], 200)
  | Some c => (JDocuments (unique_docs_loop (metadata <$> c) []), 200)
  end.

(** The first loop of [delete_document]: the file name of the first record
    carrying [doc]. *)
Definition find_filename (doc : str) (c : list Entry) : option str :=
  filename ∘ metadata <$> find (λ e, bool_decide (doc_id (metadata e) = doc)) c.

(** The stored records whose metadata carries [doc]. *)
Definition chunks_of (doc : str) (c : list Entry) : list Entry :=
  filter (λ e, doc_id (metadata e) = doc) c.

Definition delete_document (doc : str) (w : World) : Response * World :=
  match collection w with
  | None => ((JError (lit "ChromaDB not initialized"), 500), w)
  | Some c =>
      match find_filename doc c with
      | None | Some [] => ((JError (lit "Document not found"), 404), w)
      | Some filename_ =>
          let ids_to_delete :=
            if truthy (chunk_id <$> c) then chunk_id <$> chunks_of doc c
            else [] in
          let w1 :=
            if truthy ids_to_delete
            then set_collection w (collection_delete c ids_to_delete) else w in
          let filepath := os_path_join UPLOAD_FOLDER filename_ in
          let w2 :=
            if bool_decide (is_Some (upload_dir w1 !! filepath))
            then set_upload_dir w1 (delete filepath (upload_dir w1)) else w1 in
          ((JDelete (lit "Document deleted successfully") filename_
              (py_len ids_to_delete), 200), w2)
      end
  end.

(** The world an upload leaves behind when it is answered with 200: the
    file saved under the sanitised name, one new record per window. *)
Definition world_after_upload (uuid4 text : str) (file : FileStorage)
    (c : list Entry) (w : World) : World :=
  {| collection :=
       Some (c ++ imap (new_entry uuid4 (secure_filename (file_filename file)))
                    (windows text));
     upload_dir :=
       <[os_path_join UPLOAD_FOLDER (secure_filename (file_filename file))
         := file_content file]> (upload_dir w) |}.

End Handlers.

(** ** Well-formed stores

    What every store written through the handlers satisfies: the index
    keeps one record per id, and the names stored for uploaded files are
    not empty. *)
Definition store_ok (c : list Entry) : Prop :=
  NoDup (chunk_id <$> c) ∧ ∀ e, e ∈ c → filename (metadata e) ≠ [].

(** ** The libraries on ASCII text

    Executable stand-ins for the two library functions, valid on ASCII
    input under POSIX; they are used to run the handlers on concrete
    requests, never in a general statement. *)

(** [str.lower] maps the capitals [A-Z] to [a-z]. *)
Definition ascii_lower (s : str) : str :=
  (λ c, if (65 <=? c) && (c <=? 90) then c + 32 else c)%N <$> s.

(** [s.split()]: the maximal runs without whitespace. *)
Fixpoint split_ws (s cur : str) : list str :=
  match s with
  | [] => if truthy cur then [cur] else []
  | c :: s' =>
      if is_space c
      then (if truthy cur then cur :: split_ws s' [] else split_ws s' [])
      else split_ws s' (cur ++ [c])
  end.

(** The characters [_filename_ascii_strip_re] keeps: [A-Za-z0-9_.-]. *)
Definition filename_char (c : char) : bool :=
  ((65 <=? c) && (c <=? 90) || (97 <=? c) && (c <=? 122)
   || (48 <=? c) && (c <=? 57) || (c =? 95) || (c =? 46) || (c =? 45))%N.

Fixpoint lstrip_chars (chars s : str) : str :=
  match s with
  | c :: s' => if bool_decide (c ∈ chars) then lstrip_chars chars s' else s
  | [] => []
  end.

Definition strip_chars (chars s : str) : str :=
  rev (lstrip_chars chars (rev (lstrip_chars chars s))).

(** [secure_filename]: separators become spaces, whitespace runs become
    one underscore, other characters outside [A-Za-z0-9_.-] are dropped,
    leading and trailing dots and underscores are stripped. *)
Definition secure_filename_ascii (name : str) : str :=
  let spaced := (λ c, if (c =? slash)%N then 32%N else c) <$> name in
  let joined := join (lit "_") (split_ws spaced []) in
  strip_chars (lit "._") (filter (λ c, filename_char c = true) joined).

(** ** Sample data *)

(** [UPLOAD_FOLDER = 'uploads'] of [app.py]. *)
Definition uploads : str := lit "uploads".

(** A started server with an empty index and an empty upload folder. *)
Definition empty_world : World := {| collection := Some []; upload_dir := ∅ |}.

(** A one-page PDF with a text layer, on a machine without the OCR
    libraries. *)
Definition text_pdf (page : str) : Pdf :=
  {| text_layer := Ok [Ok page];
     ocr_layer := Raise (lit "No module named 'fitz'");
     ocr_close := Ok () |}.

(** A one-page scan: no text layer, [ocr] read off the page image. *)
Definition scanned_pdf (ocr : str) : Pdf :=
  {| text_layer := Ok [Ok []]; ocr_layer := Ok [Ok ocr]; ocr_close := Ok () |}.

(** An index that answers with the first [n] records. *)
Definition first_records (c : list Entry) (q : str) (n : nat) : list Entry :=
  take n c.

(** A model whose every call raises. *)
Definition failing_model (prompt : str) : Exc str :=
  Raise (lit "429 Resource has been exhausted").

Definition sample_doc_id : str := lit "123e4567-e89b-42d3-a456-426614174000".
Definition other_doc_id : str := lit "9b2d7a10-3c4f-4e5a-8f6b-0a1b2c3d4e5f".

Definition sample_text : str :=
  lit "Retrieval-augmented generation answers questions from uploaded documents.".

Definition sample_file (name : string) : FileStorage :=
  {| file_filename := lit name; file_content := text_pdf sample_text |}.

(** The world after [sample_file] was uploaded under [name] to the empty
    server. *)
Definition sample_world (name : string) : World :=
  world_after_upload secure_filename_ascii uploads sample_doc_id
    (sample_text ++ newline) (sample_file name) [] empty_world.

(** ** The chunk count of the testable properties

    The formula as the specification words it:
    [ceil(max(L - overlap, 1) / (size - overlap))]. *)
Definition claimed_chunk_count (L size overlap : Z) : Z :=
  (Z.max (L - overlap) 1 + (size - overlap) - 1) / (size - overlap).

(** [ceil(L / 800)]. *)
Definition ceil_div_800 (L : Z) : Z := (L + 799) / 800.

(** A text of [n] letters [a]. *)
Definition letters (n : nat) : str := replicate n 97%N.

(** ** Further notions used in the statements *)

(** [ceil(a / b)] for a positive [b]. *)
Definition ceil_div (a b : Z) : Z := (a + b - 1) / b.

(** Every stored file name belongs to one document. *)
Definition names_unique (c : list Entry) : Prop :=
  ∀ e1 e2, e1 ∈ c → e2 ∈ c →
    filename (metadata e1) = filename (metadata e2) →
    doc_id (metadata e1) = doc_id (metadata e2).

(** A server whose index could not be opened at start-up. *)
Definition uninitialised_world : World :=
  {| collection := None; upload_dir := ∅ |}.

(** A one-page PDF whose text layer is blank, without OCR libraries. *)
Definition blank_pdf : Pdf :=
  {| text_layer := Ok [Ok (lit "   ")];
     ocr_layer := Raise (lit "No module named 'fitz'");
     ocr_close := Ok () |}.

(** A file the PDF reader refuses. *)
Definition broken_pdf : Pdf :=
  {| text_layer := Raise (lit "EOF marker not found");
     ocr_layer := Raise (lit "cannot open broken document");
     ocr_close := Ok () |}.

(** ** Theorems on [chunk_text] *)

Lemma py_slice_take_drop {A} (s : list A) (start size : nat) :
  py_slice s (Z.of_nat start) (Z.of_nat start + Z.of_nat size)
  = take size (drop start s).
Proof.
  unfold py_slice, adjust_index, py_len.
  destruct (Z.ltb_spec (Z.of_nat start) 0) as [?|_]; [lia|].
  destruct (Z.ltb_spec (Z.of_nat start + Z.of_nat size) 0) as [?|_]; [lia|].
  destruct (Nat.le_gt_cases (length s) start) as [Hge|Hlt].
  - rewrite !Z.min_r by lia. rewrite Nat2Z.id.
    rewrite (drop_ge s start), (drop_ge s (length s)) by lia.
    by rewrite !take_nil.
  - rewrite (Z.min_l (Z.of_nat start)) by lia. rewrite Nat2Z.id.
    destruct (Nat.le_gt_cases (length s) (start + size)) as [Hge'|Hlt'].
    + rewrite Z.min_r by lia.
      rewrite !take_ge; [done| |]; rewrite length_drop; lia.
    + rewrite Z.min_l by lia. f_equal. lia.
Qed.

Lemma window_count_spec (n i : nat) :
  (i < window_count n)%nat ↔ (i * 800 < n)%nat.
Proof.
  unfold window_count.
  pose proof (Nat.div_mod_eq (n + 799) 800) as E.
  pose proof (Nat.mod_upper_bound (n + 799) 800) as B.
  split; intros H; nia.
Qed.

Lemma chunk_loop_default (text : str) (fuel j : nat) (acc : list str) :
  (window_count (length text) - j < fuel)%nat →
  (j ≤ window_count (length text))%nat →
  chunk_loop fuel text 1000 200 (Z.of_nat (j * 800)) acc
  = Some (acc ++ (window text <$> seq j (window_count (length text) - j))).
Proof.
  revert j acc. induction fuel as [|fuel IH]; intros j acc Hf Hj; [lia|].
  cbn [chunk_loop]. unfold py_len.
  destruct (Z.ltb_spec (Z.of_nat (j * 800)) (Z.of_nat (length text))) as [Hlt|Hge].
  - assert (j < window_count (length text))%nat as Hj'
      by (apply window_count_spec; lia).
    replace (Z.of_nat (j * 800) + (1000 - 200)) with (Z.of_nat (S j * 800)) by lia.
    rewrite IH by lia.
    change 1000 with (Z.of_nat 1000). rewrite py_slice_take_drop.
    replace (window_count (length text) - j)%nat
      with (S (window_count (length text) - S j)) by lia.
    cbn [seq fmap list_fmap]. by rewrite <- app_assoc.
  - assert (¬ (j < window_count (length text))%nat) as Hj'
      by (rewrite window_count_spec; lia).
    replace (window_count (length text) - j)%nat with 0%nat by lia.
    cbn. by rewrite app_nil_r.
Qed.

(** With a stride that is not positive the loop never leaves a non-empty
    text: no amount of fuel is enough. *)
Lemma chunk_loop_stalls (fuel : nat) (text : str) (chunk_size overlap : Z)
    (start : Z) (acc : list str) :
  chunk_size - overlap ≤ 0 →
  start < py_len text →
  chunk_loop fuel text chunk_size overlap start acc = None.
Proof.
  intros Hstride. revert start acc.
  induction fuel as [|fuel IH]; intros start acc Hlt; [done|].
  cbn [chunk_loop]. rewrite (proj2 (Z.ltb_lt _ _)) by done.
  apply IH. lia.
Qed.

Lemma window_count_le (n : nat) : (window_count n ≤ n)%nat.
Proof.
  unfold window_count.
  pose proof (Nat.div_mod_eq (n + 799) 800).
  pose proof (Nat.mod_upper_bound (n + 799) 800). nia.
Qed.

Lemma chunk_text_default (text : str) :
  chunk_text text default_chunk_size default_overlap = Some (windows text).
Proof.
  unfold chunk_text, default_chunk_size, default_overlap, windows.
  pose proof (window_count_le (length text)).
  change 0 with (Z.of_nat (0 * 800)).
  rewrite chunk_loop_default by lia.
  by rewrite Nat.sub_0_r.
Qed.

Lemma windows_length (text : str) :
  length (windows text) = window_count (length text).
Proof. unfold windows. by rewrite length_fmap, length_seq. Qed.

Lemma windows_lookup (text : str) (i : nat) (w : str) :
  windows text !! i = Some w →
  (i * 800 < length text)%nat ∧ w = window text i.
Proof.
  unfold windows. rewrite list_lookup_fmap.
  destruct (seq 0 (window_count (length text)) !! i) as [j|] eqn:E; [|done].
  apply lookup_seq in E as [-> Hlt]. cbn. intros [= <-].
  split; [by apply window_count_spec|done].
Qed.

Lemma window_length (text : str) (i : nat) :
  length (window text i) = Nat.min 1000 (length text - i * 800).
Proof. unfold window. by rewrite length_take, length_drop. Qed.

Lemma window_lookup (text : str) (i k : nat) :
  window text i !! k
  = if decide (k < 1000)%nat then text !! (i * 800 + k)%nat else None.
Proof.
  unfold window. destruct (decide (k < 1000)%nat) as [Hk|Hk].
  - by rewrite lookup_take_lt, lookup_drop.
  - apply lookup_take_ge. lia.
Qed.

(** C1. For every text [T], [chunk_text] with size 1000 and overlap 200
    returns, in order, one window for every [i] with [800 i < len(T)];
    window [i] is the slice [T[800 i : 800 i + 1000]], that is, its [k]-th
    character is the character of [T] at position [800 i + k] for every
    [k < 1000] and it has no further characters: nothing is trimmed, and a
    window that reaches the end of [T] is shorter than 1000. *)
Theorem chunk_text_windows (T : str) :
  ∃ ws : list str,
    chunk_text T 1000 200 = Some ws
    ∧ (∀ i : nat, (i < length ws)%nat ↔ (i * 800 < length T)%nat)
    ∧ (∀ (i : nat) (w : str), ws !! i = Some w →
        w = py_slice T (Z.of_nat i * 800) (Z.of_nat i * 800 + 1000)
        ∧ ∀ k : nat,
            w !! k
            = if decide (k < 1000)%nat then T !! (i * 800 + k)%nat else None).
Proof.
  exists (windows T). split; [apply chunk_text_default|]. split.
  - intros i. rewrite windows_length. apply window_count_spec.
  - intros i w Hw. apply windows_lookup in Hw as [_ ->]. split.
    + replace (Z.of_nat i * 800) with (Z.of_nat (i * 800)) by lia.
      change 1000 with (Z.of_nat 1000). by rewrite py_slice_take_drop.
    + apply window_lookup.
Qed.

(** C2, as stated, fails: a text of 801 characters is cut into two windows
    (starting at 0 and at 800), where the formula gives one. *)
Lemma chunk_count_formula_fails :
  length <$> chunk_text (letters 801) 1000 200 = Some 2%nat
  ∧ claimed_chunk_count (py_len (letters 801)) 1000 200 = 1.
Proof. split; reflexivity. Qed.

(** C2, amended. For every text [T] of length [L], the number of windows
    returned by [chunk_text] with size 1000 and overlap 200 is
    [ceil(L / 800)]. *)
Theorem chunk_text_count (T : str) :
  ∃ ws : list str,
    chunk_text T 1000 200 = Some ws ∧ py_len ws = ceil_div_800 (py_len T).
Proof.
  exists (windows T). split; [apply chunk_text_default|].
  unfold py_len, ceil_div_800. rewrite windows_length. unfold window_count.
  rewrite Nat2Z.inj_div, Nat2Z.inj_add. done.
Qed.

(** C3, as stated, fails: a text of 1700 characters is cut into windows of
    1000, 900 and 100 characters; the second is not the last one. *)
Lemma window_before_last_short :
  map length <$> chunk_text (letters 1700) 1000 200
  = Some [1000; 900; 100]%nat.
Proof. reflexivity. Qed.

(** C3, amended. For every text [T], every window returned by [chunk_text]
    with size 1000 and overlap 200, except the last two, has length exactly
    1000; the window before the last has between 801 and 1000 characters. *)
Theorem chunk_text_full_windows (T : str) (ws : list str) (i : nat) (w : str) :
  chunk_text T 1000 200 = Some ws →
  ws !! i = Some w →
  ((i + 2 < length ws)%nat → length w = 1000%nat)
  ∧ ((i + 1 < length ws)%nat → (801 ≤ length w ≤ 1000)%nat).
Proof.
  intros Hws Hw.
  pose proof (chunk_text_default T) as E.
  unfold default_chunk_size, default_overlap in E.
  rewrite E in Hws. injection Hws as <-.
  apply windows_lookup in Hw as [Hi ->].
  rewrite windows_length, window_length.
  split; intros Hlt; apply window_count_spec in Hlt; lia.
Qed.

Lemma chunk_text_full_windows_witness :
  length (letters 1000) = 1000%nat
  ∧ (801 ≤ length (letters 1000) ≤ 1000)%nat.
Proof.
  assert (chunk_text (letters 2500) 1000 200
          = Some [letters 1000; letters 1000; letters 900; letters 100]) as H1
    by (vm_compute; reflexivity).
  assert ([letters 1000; letters 1000; letters 900; letters 100] !! 0%nat
          = Some (letters 1000)) as H2 by reflexivity.
  destruct (chunk_text_full_windows _ _ _ _ H1 H2) as [Ha Hb].
  split; [apply Ha | apply Hb]; cbn; lia.
Defined.

(** ** Theorems on [extract_text_from_pdf] *)

Lemma extract_ok_cases (dir : gmap str Pdf) (pdf_path : str) (pdf : Pdf)
    (text : str) :
  dir !! pdf_path = Some pdf →
  primary_pass pdf = Ok text →
  extract_text_from_pdf dir pdf_path
  = if py_len (strip text) <? 50 then
      match ocr_pass pdf with
      | Ok ocr_text =>
          if py_len (strip ocr_text) >? py_len (strip text)
          then Ok ocr_text else Ok text
      | Raise _ => Ok text
      end
    else Ok text.
Proof. intros Hf Hp. unfold extract_text_from_pdf. by rewrite Hf, Hp. Qed.

(** With 50 or more characters left after trimming, the OCR route has no
    say in the result. *)
Lemma extract_no_ocr (dir : gmap str Pdf) (pdf_path : str) (pdf : Pdf)
    (text : str) :
  dir !! pdf_path = Some pdf →
  primary_pass pdf = Ok text →
  50 ≤ py_len (strip text) →
  extract_text_from_pdf dir pdf_path = Ok text.
Proof.
  intros Hf Hp Hlen. rewrite (extract_ok_cases _ _ _ _ Hf Hp).
  destruct (Z.ltb_spec (py_len (strip text)) 50); [lia|done].
Qed.

(** Where the OCR route can raise: at the imports or [fitz.open], on a
    page, or at [doc.close()]. *)
Lemma ocr_pass_raise (pdf : Pdf) (e : str) :
  ocr_pass pdf = Raise e ↔
  ocr_layer pdf = Raise e
  ∨ (∃ pages, ocr_layer pdf = Ok pages
       ∧ (ocr_pages pages [] = Raise e
          ∨ (∃ t, ocr_pages pages [] = Ok t) ∧ ocr_close pdf = Raise e)).
Proof.
  unfold ocr_pass, exc_bind.
  destruct (ocr_layer pdf) as [pages|e1] eqn:E1; cbn.
  - destruct (ocr_pages pages []) as [t|e2] eqn:E2; cbn.
    + destruct (ocr_close pdf) as [[]|e3] eqn:E3; cbn; split.
      * done.
      * intros [?|(pages' & [= <-] & [?|[_ ?]])]; congruence.
      * intros [= ->]. right. exists pages. split; [done|]. right. eauto.
      * intros [?|(pages' & [= <-] & [?|[_ ?]])]; congruence.
    + split.
      * intros [= ->]. right. exists pages. split; [done|]. by left.
      * intros [?|(pages' & [= <-] & [?|[[? ?] _]])]; congruence.
  - split; [intros [= ->]; by left|].
    intros [[= ->]|(? & ? & _)]; congruence.
Qed.

(** C9. When the text of the primary pass has fewer than 50 characters
    after trimming, the result of [extract_text_from_pdf] depends on the
    per-page OCR pass: if that pass completes, its text is returned exactly
    when it is strictly longer after trimming than the primary text, and
    the primary text is returned otherwise; if that pass raises, the
    exception is swallowed and the primary text is returned. An exception
    of the primary pass is raised to the caller. *)
Theorem extract_text_fallback (dir : gmap str Pdf) (pdf_path : str)
    (pdf : Pdf) :
  dir !! pdf_path = Some pdf →
  (∀ e : str,
      primary_pass pdf = Raise e →
      extract_text_from_pdf dir pdf_path = Raise e)
  ∧ (∀ text : str,
      primary_pass pdf = Ok text →
      py_len (strip text) < 50 →
      (∀ ocr_text : str,
          ocr_pass pdf = Ok ocr_text →
          (py_len (strip text) < py_len (strip ocr_text) →
           extract_text_from_pdf dir pdf_path = Ok ocr_text)
          ∧ (py_len (strip ocr_text) ≤ py_len (strip text) →
             extract_text_from_pdf dir pdf_path = Ok text))
      ∧ (∀ e : str,
          ocr_pass pdf = Raise e →
          extract_text_from_pdf dir pdf_path = Ok text)).
Proof.
  intros Hf. split.
  - intros e Hp. unfold extract_text_from_pdf. by rewrite Hf, Hp.
  - intros text Hp Hlen. rewrite (extract_ok_cases _ _ _ _ Hf Hp).
    destruct (Z.ltb_spec (py_len (strip text)) 50); [|lia].
    split.
    + intros ocr_text ->. split; intros Hcmp.
      * rewrite (proj2 (Z.gtb_gt _ _)); [done|lia].
      * destruct (py_len (strip ocr_text) >? py_len (strip text)) eqn:E;
          [|done].
        apply Z.gtb_gt in E. lia.
    + by intros e ->.
Qed.

(** ** Theorems on the handlers *)

Section HandlerProperties.

Context (secure_filename lower : str → str).
Context (query : list Entry → str → nat → list Entry).
Context (UPLOAD_FOLDER : str).

Local Abbreviation upload := (upload_document secure_filename lower UPLOAD_FOLDER).
Local Abbreviation delete_doc := (delete_document UPLOAD_FOLDER).

Lemma truthy_false {A} (l : list A) : truthy l = false ↔ l = [].
Proof. by destruct l. Qed.

Lemma truthy_true {A} (l : list A) : truthy l = true ↔ l ≠ [].
Proof. by destruct l. Qed.

(** A name with an extension is not empty. *)
Lemma allowed_file_nonempty (name : str) :
  allowed_file lower name = true → name ≠ [].
Proof.
  unfold allowed_file. intros H ->.
  apply andb_true_iff in H as [H _]. apply bool_decide_eq_true in H.
  by apply elem_of_nil in H.
Qed.

(** C5. With an index that holds no chunk, a chat request whose body
    carries a question is answered with status 200 and exactly the body
    [{'answer': "I don't have any documents to reference. Please upload a
    PDF document first.", 'sources': []}]. *)
Theorem chat_empty_index (model : option (str → Exc str)) (question : str)
    (w : World) :
  (∀ c q n, query c q n ⊆ c) →
  collection w = Some [] →
  chat query model (Body (Some question)) w
  = (JChat (lit "I don't have any documents to reference. Please upload a PDF document first.") [],
     200).
Proof.
  intros Hq Hc. unfold chat, query_chromadb. rewrite Hc.
  assert (query [] question 5 = []) as ->; [|done].
  destruct (query [] question 5) as [|e l] eqn:E; [done|].
  pose proof (Hq [] question 5%nat e) as H. rewrite E in H.
  exfalso. eapply not_elem_of_nil, H. by left.
Qed.

(** C8. When the generative model raises during a chat request whose
    retrieved context is not empty, the response still has status 200; its
    answer is the text [Error generating response: ] followed by the
    message of the exception, next to the sources of the retrieved
    records. *)
Theorem chat_generation_failure (generate : str → Exc str)
    (question : str) (w : World) (c : list Entry) (e : str) :
  collection w = Some c →
  context_of (query c question 5) ≠ [] →
  generate (prompt_of question (context_of (query c question 5))) = Raise e →
  chat query (Some generate) (Body (Some question)) w
  = (JChat (lit "Error generating response: " ++ e)
       (collect_sources (metadata <$> query c question 5) []), 200).
Proof.
  intros Hc Hctx Hgen.
  unfold chat, query_chromadb. rewrite Hc.
  rewrite (proj2 (truthy_true _)) by done. cbn [negb].
  unfold generate_response. by rewrite Hgen.
Qed.

(** The duplicate check of [upload_document]: a stored record with the
    sanitised name stops the upload before anything is written. *)
Lemma upload_document_duplicate (uuid4 : str) (file : FileStorage)
    (w : World) (c : list Entry) (e : Entry) :
  collection w = Some c →
  e ∈ c →
  filename (metadata e) = secure_filename (file_filename file) →
  upload uuid4 (Some file) w
  = Some ((JError
      (if negb (truthy (file_filename file)) then lit "No file selected"
       else if negb (allowed_file lower (file_filename file))
            then lit "Only PDF files are allowed"
            else duplicate_message), 400), w).
Proof.
  intros Hc He Hname. unfold upload_document.
  destruct (truthy (file_filename file)); cbn [negb]; [|done].
  destruct (allowed_file lower (file_filename file)); cbn [negb]; [|done].
  assert (filename_stored (secure_filename (file_filename file)) w = true)
    as ->; [|done].
  unfold filename_stored. rewrite Hc. apply existsb_exists.
  exists e. split; [by apply list_elem_of_In|]. by apply bool_decide_eq_true.
Qed.

(** C6. When some stored chunk carries the sanitised name of the uploaded
    file, the upload is answered with status 400 and the world, hence the
    set of stored chunks, is left as it was; the error is the
    duplicate-file message whenever the raw name has the [pdf]
    extension. *)
Theorem upload_duplicate_rejected (uuid4 : str) (file : FileStorage)
    (w : World) (c : list Entry) (e : Entry) :
  collection w = Some c →
  e ∈ c →
  filename (metadata e) = secure_filename (file_filename file) →
  ∃ msg : str,
    upload uuid4 (Some file) w = Some ((JError msg, 400), w)
    ∧ (allowed_file lower (file_filename file) = true →
       msg = lit "File already uploaded. Please delete the existing file first or upload a different file.").
Proof.
  intros Hc He Hname. eexists. split.
  - by apply (upload_document_duplicate uuid4 file w c e).
  - intros Hal. rewrite (proj2 (truthy_true _)), Hal; [done|].
    by apply allowed_file_nonempty.
Qed.

(** In particular, a name that is stored and that [secure_filename] leaves
    alone cannot be uploaded again. *)
Lemma upload_stored_name (uuid4 : str) (file : FileStorage) (w : World)
    (c : list Entry) (e : Entry) :
  collection w = Some c →
  e ∈ c →
  filename (metadata e) = file_filename file →
  secure_filename (file_filename file) = file_filename file →
  ∃ msg : str, upload uuid4 (Some file) w = Some ((JError msg, 400), w).
Proof.
  intros Hc He Hname Hfix. eexists.
  apply (upload_document_duplicate uuid4 file w c e); congruence.
Qed.

Lemma find_head_filter {A} (P : A → bool) (l : list A) :
  find P l = head (filter (λ x, P x = true) l).
Proof.
  induction l as [|x l IH]; [done|]. cbn [find]. rewrite filter_cons.
  destruct (P x) eqn:E.
  - by rewrite decide_True.
  - rewrite decide_False by congruence. done.
Qed.

Lemma find_filename_head (doc : str) (c : list Entry) :
  find_filename doc c = filename ∘ metadata <$> head (chunks_of doc c).
Proof.
  unfold find_filename, chunks_of. rewrite find_head_filter. do 2 f_equal.
  apply list_filter_iff. intros e. apply bool_decide_eq_true.
Qed.

Lemma filter_ext_in {A} (P Q : A → Prop) `{∀ x, Decision (P x)}
    `{∀ x, Decision (Q x)} (l : list A) :
  (∀ x, x ∈ l → P x ↔ Q x) → filter P l = filter Q l.
Proof.
  induction l as [|x l IH]; intros HPQ; [done|].
  rewrite !filter_cons, IH by (intros y Hy; apply HPQ; by right).
  destruct (decide (P x)) as [HP|HP], (decide (Q x)) as [HQ|HQ]; try done;
    exfalso; apply (HPQ x) in HP || apply (HPQ x) in HQ; try done; by left.
Qed.

Lemma filter_all {A} (P : A → Prop) `{∀ x, Decision (P x)} (l : list A) :
  (∀ x, x ∈ l → P x) → filter P l = l.
Proof.
  induction l as [|x l IH]; intros HP; [done|].
  rewrite filter_cons, decide_True by (apply HP; by left).
  f_equal. apply IH. intros y Hy. apply HP. by right.
Qed.

Lemma filter_none {A} (P : A → Prop) `{∀ x, Decision (P x)} (l : list A) :
  (∀ x, x ∈ l → ¬ P x) → filter P l = [].
Proof.
  induction l as [|x l IH]; intros HP; [done|].
  rewrite filter_cons, decide_False by (apply HP; by left).
  apply IH. intros y Hy. apply HP. by right.
Qed.

Lemma NoDup_fmap_inj_in {A B} (f : A → B) (l : list A) (x y : A) :
  NoDup (f <$> l) → x ∈ l → y ∈ l → f x = f y → x = y.
Proof.
  induction l as [|a l IH]; intros Hnd Hx Hy Hf; [by apply elem_of_nil in Hx|].
  rewrite fmap_cons in Hnd. apply NoDup_cons in Hnd as [Ha Hnd].
  apply elem_of_cons in Hx as [->|Hx], Hy as [->|Hy]; [done| | |by apply IH].
  - exfalso. apply Ha. rewrite Hf. by apply list_elem_of_fmap_2.
  - exfalso. apply Ha. rewrite <- Hf. by apply list_elem_of_fmap_2.
Qed.

(** Deleting the ids of the records of [doc] removes those records and no
    other, since ids are not shared. *)
Lemma collection_delete_chunks_of (doc : str) (c : list Entry) :
  NoDup (chunk_id <$> c) →
  collection_delete c (chunk_id <$> chunks_of doc c)
  = filter (λ e, doc_id (metadata e) ≠ doc) c.
Proof.
  intros Hnd. unfold collection_delete. apply filter_ext_in.
  intros e He. split.
  - intros Hid Hdoc. apply Hid, list_elem_of_fmap_2.
    unfold chunks_of. by apply list_elem_of_filter.
  - intros Hdoc Hid. apply list_elem_of_fmap in Hid as (e' & Hids & He').
    apply list_elem_of_filter in He' as [Hdoc' He'].
    assert (e = e') as -> by (by eapply NoDup_fmap_inj_in).
    done.
Qed.

Lemma unique_docs_loop_keys (metas : list Metadata) (acc : list (str * str))
    (d : str) :
  d ∈ (unique_docs_loop metas acc).*1 → d ∈ acc.*1 ∨ d ∈ doc_id <$> metas.
Proof.
  revert acc. induction metas as [|m metas IH]; intros acc Hd; [by left|].
  cbn [unique_docs_loop] in Hd. apply IH in Hd as [Hd|Hd].
  - destruct (truthy (filename m) && truthy (doc_id m)
              && negb (bool_decide (doc_id m ∈ acc.*1))); [|by left].
    rewrite fmap_app in Hd. apply elem_of_app in Hd as [Hd|Hd]; [by left|].
    right. cbn in Hd. apply list_elem_of_singleton in Hd as ->. by left.
  - right. rewrite fmap_cons. by right.
Qed.

(** The second half of [delete_document], once the name is found. *)
Lemma delete_document_found (doc : str) (w : World) (c : list Entry)
    (e0 : Entry) :
  collection w = Some c →
  head (chunks_of doc c) = Some e0 →
  filename (metadata e0) ≠ [] →
  delete_doc doc w
  = ((JDelete (lit "Document deleted successfully") (filename (metadata e0))
        (py_len (chunks_of doc c)), 200),
     {| collection := Some (collection_delete c (chunk_id <$> chunks_of doc c));
        upload_dir :=
          delete (os_path_join UPLOAD_FOLDER (filename (metadata e0)))
            (upload_dir w) |}).
Proof.
  intros Hc Hhead Hname. unfold delete_document.
  rewrite Hc, find_filename_head, Hhead.
  cbn [fmap option_fmap option_map compose].
  destruct (filename (metadata e0)) as [|ch fname] eqn:Ef; [done|].
  destruct (chunks_of doc c) as [|e rest] eqn:Ech; [done|].
  assert (truthy (chunk_id <$> c) = true) as ->.
  { apply truthy_true. intros E. apply fmap_nil_inv in E. subst c.
    unfold chunks_of in Ech. by rewrite filter_nil in Ech. }
  cbn [truthy fmap list_fmap]. unfold py_len. cbn [length].
  rewrite length_fmap. f_equal.
  unfold set_upload_dir, set_collection. cbn [upload_dir collection].
  case_bool_decide as Hs; [done|].
  f_equal. symmetry. apply delete_id. by apply eq_None_not_Some.
Qed.

(** C7. On a well-formed store, [DELETE /api/documents/{doc_id}] answers 404
    and leaves the world as it was when no stored chunk carries the
    [doc_id]; otherwise it answers 200 with [chunks_deleted] equal to the
    number of chunks whose metadata carries the [doc_id], the index keeps
    exactly the other chunks, the file stored under the document's name is
    gone from the upload folder, and the listing computed afterwards does
    not contain the [doc_id]. *)
Theorem delete_document_spec (doc : str) (w : World) (c : list Entry) :
  collection w = Some c →
  store_ok c →
  (chunks_of doc c = [] →
   delete_doc doc w = ((JError (lit "Document not found"), 404), w))
  ∧ (chunks_of doc c ≠ [] →
     ∃ (fname : str) (w' : World),
       delete_doc doc w
       = ((JDelete (lit "Document deleted successfully") fname
             (py_len (chunks_of doc c)), 200), w')
       ∧ (∃ e, e ∈ c ∧ doc_id (metadata e) = doc
               ∧ filename (metadata e) = fname)
       ∧ collection w' = Some (filter (λ e, doc_id (metadata e) ≠ doc) c)
       ∧ upload_dir w' = delete (os_path_join UPLOAD_FOLDER fname) (upload_dir w)
       ∧ upload_dir w' !! os_path_join UPLOAD_FOLDER fname = None
       ∧ ∀ docs, list_documents w' = (JDocuments docs, 200) → doc ∉ docs.*1).
Proof.
  intros Hc [Hnd Hname]. split.
  - intros Hnone. unfold delete_document.
    by rewrite Hc, find_filename_head, Hnone.
  - intros Hne. destruct (chunks_of doc c) as [|e0 rest] eqn:Ech; [done|].
    assert (e0 ∈ c ∧ doc_id (metadata e0) = doc) as [He0 Hdoc0].
    { assert (e0 ∈ chunks_of doc c) as Hin by (rewrite Ech; by left).
      unfold chunks_of in Hin. by apply list_elem_of_filter in Hin as [? ?]. }
    eexists _, _. split.
    { rewrite (delete_document_found doc w c e0 Hc); [|by rewrite Ech|by apply Hname].
      by rewrite Ech. }
    cbn [collection upload_dir].
    split; [by exists e0|]. rewrite <- Ech.
    rewrite collection_delete_chunks_of by done.
    split; [done|]. split; [done|]. split; [apply lookup_delete_eq|].
    intros docs. unfold list_documents. cbn [collection].
    intros [= <-] Hin. apply unique_docs_loop_keys in Hin as [Hin|Hin].
    + by apply elem_of_nil in Hin.
    + rewrite <- list_fmap_compose in Hin.
      apply list_elem_of_fmap in Hin as (e & -> & He).
      by apply list_elem_of_filter in He as [? ?].
Qed.

End HandlerProperties.

(** ** Theorems on the upload path *)

Lemma lstrip_app (p q : str) :
  lstrip (p ++ q) = if truthy (lstrip p) then lstrip p ++ q else lstrip q.
Proof.
  induction p as [|c p IH]; [done|]. cbn [app lstrip].
  by destruct (is_space c).
Qed.

(** The line feed that [read_pages] appends does not survive trimming. *)
Lemma strip_app_newline (p : str) : strip (p ++ newline) = strip p.
Proof.
  unfold strip. rewrite lstrip_app.
  destruct (lstrip p) as [|c q] eqn:E; [done|]. cbn [truthy].
  unfold rstrip, newline. by rewrite rev_unit.
Qed.

Lemma windows_nonempty (text : str) : text ≠ [] → windows text ≠ [].
Proof.
  intros Hne Hw.
  assert (length (windows text) = 0%nat) as Hlen by (by rewrite Hw).
  rewrite windows_length in Hlen.
  assert (0 < window_count (length text))%nat; [|lia].
  apply window_count_spec. destruct text; [done|]. cbn [length]. lia.
Qed.

Lemma strip_nonempty (text : str) : strip text ≠ [] → text ≠ [].
Proof. by intros H ->. Qed.

Section UploadProperties.

Context (secure_filename lower : str → str).
Context (UPLOAD_FOLDER : str).

Local Abbreviation upload := (upload_document secure_filename lower UPLOAD_FOLDER).
Local Abbreviation delete_doc := (delete_document UPLOAD_FOLDER).
Local Abbreviation path_of raw := (os_path_join UPLOAD_FOLDER (secure_filename raw)).
Local Abbreviation uploaded := (world_after_upload secure_filename UPLOAD_FOLDER).

Lemma store_in_chromadb_default (uuid4 text name : str) (w : World)
    (c : list Entry) :
  collection w = Some c →
  store_in_chromadb uuid4 text name w
  = Some (Ok (uuid4, py_len (windows text)),
          set_collection w (c ++ imap (new_entry uuid4 name) (windows text))).
Proof.
  intros Hc. unfold store_in_chromadb. by rewrite Hc, chunk_text_default.
Qed.

(** [upload_document] always comes back with a response. *)
Lemma upload_document_returns (uuid4 : str) (file_ : option FileStorage)
    (w : World) :
  ∃ r, upload uuid4 file_ w = Some r.
Proof.
  unfold upload_document. destruct file_ as [file|]; [|eauto].
  repeat (match goal with
          | |- context [if ?b then _ else _] => destruct b
          | |- context [match extract_text_from_pdf ?d ?p with _ => _ end] =>
              destruct (extract_text_from_pdf d p)
          end; eauto).
  unfold store_in_chromadb. cbn [collection set_upload_dir].
  destruct (collection w); [|eauto].
  rewrite chunk_text_default. eauto.
Qed.

(** The path through [upload_document] that ends in status 200. *)
Lemma upload_document_ok (uuid4 text : str) (file : FileStorage) (w : World)
    (c : list Entry) :
  file_filename file ≠ [] →
  allowed_file lower (file_filename file) = true →
  collection w = Some c →
  (∀ e, e ∈ c → filename (metadata e) ≠ secure_filename (file_filename file)) →
  extract_text_from_pdf
    (<[path_of (file_filename file) := file_content file]> (upload_dir w))
    (path_of (file_filename file)) = Ok text →
  strip text ≠ [] →
  upload uuid4 (Some file) w
  = Some ((JUpload (lit "Document uploaded and processed successfully")
             (secure_filename (file_filename file)) uuid4
             (py_len (windows text)) (py_len text), 200),
          uploaded uuid4 text file c w).
Proof.
  intros Hne Hal Hc Hfresh Hext Hstrip. unfold upload_document.
  rewrite (proj2 (truthy_true _)), Hal by done. cbn [negb].
  assert (filename_stored (secure_filename (file_filename file)) w = false)
    as ->.
  { unfold filename_stored. rewrite Hc.
    destruct (existsb _ c) eqn:E; [|done].
    apply existsb_exists in E as (e & He & Heq).
    apply bool_decide_eq_true in Heq. apply list_elem_of_In in He.
    by apply Hfresh in He. }
  cbn [upload_dir set_upload_dir]. rewrite Hext.
  rewrite (proj2 (truthy_true _)) by done. cbn [negb].
  rewrite (store_in_chromadb_default _ _ _ _ c) by done.
  done.
Qed.

(** Conversely, status 200 is only reached along that path. *)
Lemma upload_document_200_inv (uuid4 : str) (file_ : option FileStorage)
    (w w' : World) (body : Json) :
  upload uuid4 file_ w = Some ((body, 200), w') →
  ∃ (file : FileStorage) (c : list Entry) (text : str),
    file_ = Some file
    ∧ file_filename file ≠ []
    ∧ allowed_file lower (file_filename file) = true
    ∧ collection w = Some c
    ∧ (∀ e, e ∈ c → filename (metadata e) ≠ secure_filename (file_filename file))
    ∧ extract_text_from_pdf
        (<[path_of (file_filename file) := file_content file]> (upload_dir w))
        (path_of (file_filename file)) = Ok text
    ∧ strip text ≠ []
    ∧ body = JUpload (lit "Document uploaded and processed successfully")
               (secure_filename (file_filename file)) uuid4
               (py_len (windows text)) (py_len text)
    ∧ w' = uploaded uuid4 text file c w.
Proof.
  unfold upload_document. destruct file_ as [file|]; [|done].
  destruct (truthy (file_filename file)) eqn:Et; cbn [negb]; [|done].
  destruct (allowed_file lower (file_filename file)) eqn:Ea; cbn [negb];
    [|done].
  destruct (filename_stored _ w) eqn:Es; [done|].
  cbn [upload_dir set_upload_dir].
  destruct (extract_text_from_pdf _ _) as [text|e] eqn:Eext; [|done].
  destruct (truthy (strip text)) eqn:Est; cbn [negb]; [|done].
  unfold store_in_chromadb, set_upload_dir. cbn [collection].
  destruct (collection w) as [c|] eqn:Ec; [|done].
  rewrite chunk_text_default. intros [= <- <-].
  exists file, c, text. repeat split; try done.
  - by apply truthy_true.
  - intros e He Heq. unfold filename_stored in Es. rewrite Ec in Es.
    assert (existsb (λ e, bool_decide (filename (metadata e)
              = secure_filename (file_filename file))) c = true) as Hex;
      [|congruence].
    apply existsb_exists. exists e.
    split; [by apply list_elem_of_In|by apply bool_decide_eq_true].
  - by apply truthy_true.
Qed.

Lemma document_new_entries (doc name : str) (chunks : list str) :
  document <$> imap (new_entry doc name) chunks = chunks.
Proof.
  apply list_eq. intros i. rewrite list_lookup_fmap, list_lookup_imap.
  by destruct (chunks !! i).
Qed.

Lemma windows_2401 (text : str) :
  length text = 2401%nat →
  windows text = (λ k, take 1000 (drop k text)) <$> [0; 800; 1600; 2400]%nat.
Proof.
  intros Hlen. unfold windows. rewrite Hlen.
  change (window_count 2401) with 4%nat. reflexivity.
Qed.

(** C4, amended. Uploading a PDF named [x.pdf] with a single page whose
    text layer has 2400 characters, at least 50 of them left after
    trimming, to an index that holds no chunk of that name, is answered
    with status 200, [chunks = 4] and [text_length = 2401]: the extracted
    text is the page text followed by a line feed, and the stored windows
    start at characters 0, 800, 1600 and 2400 of it. *)
Theorem upload_single_page_2400 (uuid4 : str) (pdf : Pdf) (w : World)
    (c : list Entry) (page : str) :
  allowed_file lower (lit "x.pdf") = true →
  secure_filename (lit "x.pdf") = lit "x.pdf" →
  collection w = Some c →
  (∀ e, e ∈ c → filename (metadata e) ≠ lit "x.pdf") →
  text_layer pdf = Ok [Ok page] →
  length page = 2400%nat →
  50 ≤ py_len (strip page) →
  ∃ w' : World,
    upload uuid4 (Some {| file_filename := lit "x.pdf"; file_content := pdf |}) w
    = Some ((JUpload (lit "Document uploaded and processed successfully")
               (lit "x.pdf") uuid4 4 2401, 200), w')
    ∧ ∃ new : list Entry,
        collection w' = Some (c ++ new)
        ∧ document <$> new
          = (λ k, take 1000 (drop k (page ++ newline)))
              <$> [0; 800; 1600; 2400]%nat.
Proof.
  intros Hal Hsec Hc Hfresh Hlayer Hlen Htrim.
  set (file := {| file_filename := lit "x.pdf"; file_content := pdf |}).
  assert (primary_pass pdf = Ok (page ++ newline)) as Hprim.
  { unfold primary_pass. rewrite Hlayer. cbn [exc_bind read_pages].
    destruct page; [done|]. done. }
  assert (length (page ++ newline) = 2401%nat) as Hlen'
    by (rewrite length_app, Hlen; done).
  assert (extract_text_from_pdf
            (<[path_of (file_filename file) := file_content file]> (upload_dir w))
            (path_of (file_filename file)) = Ok (page ++ newline)) as Hext.
  { apply (extract_no_ocr _ _ pdf); [apply lookup_insert_eq|done|].
    by rewrite strip_app_newline. }
  assert (strip (page ++ newline) ≠ []) as Hne.
  { rewrite strip_app_newline. intros E. rewrite E in Htrim. done. }
  assert (secure_filename (file_filename file) = lit "x.pdf") as Hsec'
    by exact Hsec.
  eexists. split.
  - rewrite (upload_document_ok uuid4 (page ++ newline) file w c);
      [|done|done|done|by rewrite Hsec'|done|done].
    rewrite Hsec'. unfold py_len.
    rewrite windows_length, Hlen'. reflexivity.
  - eexists. split; [reflexivity|].
    by rewrite document_new_entries, windows_2401.
Qed.

Lemma unique_docs_loop_app (m1 m2 : list Metadata) (acc : list (str * str)) :
  unique_docs_loop (m1 ++ m2) acc
  = unique_docs_loop m2 (unique_docs_loop m1 acc).
Proof.
  revert acc. induction m1 as [|m m1 IH]; intros acc; [done|].
  cbn [app unique_docs_loop]. apply IH.
Qed.

Lemma unique_docs_loop_keeps (metas : list Metadata) (acc : list (str * str))
    (x : str * str) :
  x ∈ acc → x ∈ unique_docs_loop metas acc.
Proof.
  revert acc. induction metas as [|m metas IH]; intros acc Hx; [done|].
  cbn [unique_docs_loop]. apply IH.
  destruct (_ && _); [|done]. apply elem_of_app. by left.
Qed.

Lemma chunks_of_new_entries (doc name : str) (chunks : list str) :
  chunks_of doc (imap (new_entry doc name) chunks)
  = imap (new_entry doc name) chunks.
Proof.
  unfold chunks_of. apply filter_all.
  intros e He. by apply elem_of_lookup_imap in He as (i & chunk & -> & _).
Qed.

Lemma chunks_of_fresh (doc : str) (c : list Entry) :
  (∀ e, e ∈ c → doc_id (metadata e) ≠ doc) → chunks_of doc c = [].
Proof.
  intros Hfresh. unfold chunks_of. by apply filter_none.
Qed.

(** C10, amended. An upload answered with status 200 echoes
    [secure_filename] of the raw name, stores that name (and the drawn
    [doc_id]) in the metadata of every new chunk and saves the file under
    it. In the resulting world, an upload under any raw name that
    sanitises to the same string and has the [pdf] extension is rejected
    as a duplicate with status 400 and no change.
    If moreover the sanitised name and the [doc_id] are not empty and the
    [doc_id] was not in use, the listing and the answer to the deletion
    of that [doc_id] carry the sanitised name as well. *)
Theorem upload_sanitised_name (uuid4 : str) (file : FileStorage)
    (w w' : World) (body : Json) :
  upload uuid4 (Some file) w = Some ((body, 200), w') →
  (∃ n len : Z,
      body = JUpload (lit "Document uploaded and processed successfully")
               (secure_filename (file_filename file)) uuid4 n len)
  ∧ (∃ c new : list Entry,
      collection w = Some c ∧ collection w' = Some (c ++ new) ∧ new ≠ []
      ∧ ∀ e, e ∈ new →
          filename (metadata e) = secure_filename (file_filename file)
          ∧ doc_id (metadata e) = uuid4)
  ∧ upload_dir w' !! path_of (file_filename file) = Some (file_content file)
  ∧ (∀ (uuid4' : str) (file' : FileStorage),
      allowed_file lower (file_filename file') = true →
      secure_filename (file_filename file')
      = secure_filename (file_filename file) →
      upload uuid4' (Some file') w'
      = Some ((JError (lit "File already uploaded. Please delete the existing file first or upload a different file."),
               400), w'))
  ∧ (secure_filename (file_filename file) ≠ [] →
     uuid4 ≠ [] →
     (∀ c e, collection w = Some c → e ∈ c → doc_id (metadata e) ≠ uuid4) →
     (∃ docs : list (str * str),
         list_documents w' = (JDocuments docs, 200)
         ∧ (uuid4, secure_filename (file_filename file)) ∈ docs)
     ∧ (∃ (n : Z) (w'' : World),
         delete_doc uuid4 w'
         = ((JDelete (lit "Document deleted successfully")
               (secure_filename (file_filename file)) n, 200), w''))).
Proof.
  intros Hup.
  apply upload_document_200_inv in Hup
    as (file0 & c & text & [= <-] & Hraw & Hal & Hc & Hfresh & Hext & Hstrip
        & -> & ->).
  set (name := secure_filename (file_filename file)).
  set (new := imap (new_entry uuid4 name) (windows text)).
  assert (windows text ≠ []) as Hwin
    by (by apply windows_nonempty, strip_nonempty).
  assert (new ≠ []) as Hnew.
  { intros E. apply (f_equal length) in E. subst new.
    rewrite length_imap in E. by destruct (windows text). }
  assert (∀ e, e ∈ new → filename (metadata e) = name
                         ∧ doc_id (metadata e) = uuid4) as Hmeta.
  { intros e He. by apply elem_of_lookup_imap in He as (i & chunk & -> & _). }
  split; [eauto|]. split; [by exists c, new|].
  split; [apply lookup_insert_eq|]. split.
  - intros uuid4' file' Hal' Hsame.
    assert (file_filename file' ≠ []) as Hraw'
      by (by eapply allowed_file_nonempty).
    destruct new as [|e0 new'] eqn:Enew; [done|].
    rewrite (upload_document_duplicate secure_filename lower UPLOAD_FOLDER
               uuid4' file' (uploaded uuid4 text file c w) (c ++ e0 :: new') e0).
    + by rewrite (proj2 (truthy_true _)), Hal'.
    + unfold world_after_upload. cbn [collection]. fold name. by rewrite <- Enew.
    + apply elem_of_app. right. by left.
    + rewrite Hsame. apply Hmeta. by left.
  - intros Hname Huuid Hunused.
    assert (∀ e, e ∈ c → doc_id (metadata e) ≠ uuid4) as Hunused'
      by (intros e He; by eapply Hunused).
    destruct (windows text) as [|chunk0 rest] eqn:Ewin; [done|].
    split.
    + eexists. split; [unfold list_documents, world_after_upload; reflexivity|].
      cbn [collection]. fold name. rewrite Ewin. cbn [imap].
      rewrite fmap_app, unique_docs_loop_app. cbn [fmap list_fmap].
      cbn [unique_docs_loop metadata new_entry filename doc_id].
      rewrite !(proj2 (truthy_true _)) by done.
      rewrite bool_decide_eq_false_2.
      * apply unique_docs_loop_keeps, elem_of_app. right. by left.
      * intros Hin. apply unique_docs_loop_keys in Hin as [Hin|Hin].
        -- by apply elem_of_nil in Hin.
        -- rewrite <- list_fmap_compose in Hin.
           apply list_elem_of_fmap in Hin as (e & Heq & He).
           by apply (Hunused' e).
    + assert (collection (uploaded uuid4 text file c w) = Some (c ++ new))
        as Hc' by (unfold world_after_upload; cbn [collection]; by rewrite Ewin).
      assert (head (chunks_of uuid4 (c ++ new))
              = Some (new_entry uuid4 name 0 chunk0)) as Hhead.
      { unfold chunks_of. rewrite filter_app.
        fold (chunks_of uuid4 c) (chunks_of uuid4 new).
        rewrite chunks_of_fresh by done. subst new.
        by rewrite chunks_of_new_entries. }
      eexists _, _.
      by rewrite (delete_document_found UPLOAD_FOLDER uuid4 _ _ _ Hc' Hhead).
Qed.

End UploadProperties.

(** ** Concrete runs *)

Lemma first_records_sound (c : list Entry) (q : str) (n : nat) :
  first_records c q n ⊆ c.
Proof. apply subseteq_take. Qed.

(** The sample upload goes through on the empty server. *)
Lemma sample_upload (name : string) :
  lit name ≠ [] →
  allowed_file ascii_lower (lit name) = true →
  upload_document secure_filename_ascii ascii_lower uploads sample_doc_id
    (Some (sample_file name)) empty_world
  = Some ((JUpload (lit "Document uploaded and processed successfully")
             (secure_filename_ascii (lit name)) sample_doc_id 1 74, 200),
          sample_world name).
Proof.
  intros Hne Hal.
  rewrite (upload_document_ok _ _ _ _ (sample_text ++ newline) _ _ []);
    try done.
  - intros e He. by apply elem_of_nil in He.
  - apply (extract_no_ocr _ _ (text_pdf sample_text));
      [apply lookup_insert_eq|done|by vm_compute].
Qed.

(** C4, as stated, fails: for a page text of 2400 letters the response
    reports four chunks and a text length of 2401. *)
Lemma upload_2400_reports_four_chunks :
  fst <$> upload_document secure_filename_ascii ascii_lower uploads
            sample_doc_id
            (Some {| file_filename := lit "x.pdf";
                     file_content := text_pdf (letters 2400) |})
            empty_world
  = Some (JUpload (lit "Document uploaded and processed successfully")
            (lit "x.pdf") sample_doc_id 4 2401, 200).
Proof. vm_compute. reflexivity. Qed.

Lemma upload_single_page_2400_witness :
  ∃ w' : World,
    upload_document secure_filename_ascii ascii_lower uploads sample_doc_id
      (Some {| file_filename := lit "x.pdf";
               file_content := text_pdf (letters 2400) |}) empty_world
    = Some ((JUpload (lit "Document uploaded and processed successfully")
               (lit "x.pdf") sample_doc_id 4 2401, 200), w')
    ∧ ∃ new : list Entry,
        collection w' = Some ([] ++ new)
        ∧ document <$> new
          = (λ k, take 1000 (drop k (letters 2400 ++ newline)))
              <$> [0; 800; 1600; 2400]%nat.
Proof.
  apply (upload_single_page_2400 secure_filename_ascii ascii_lower uploads
           sample_doc_id (text_pdf (letters 2400)) empty_world []
           (letters 2400)).
  - vm_compute. reflexivity.
  - vm_compute. reflexivity.
  - reflexivity.
  - intros e He. exfalso. eapply not_elem_of_nil, He.
  - reflexivity.
  - vm_compute. reflexivity.
  - vm_compute. discriminate.
Defined.

(** The sanitised name need not be the raw one. *)
Lemma sanitised_name_differs :
  secure_filename_ascii (lit "my file.PDF") = lit "my_file.PDF"
  ∧ secure_filename_ascii (lit "../../etc/passwd.pdf") = lit "etc_passwd.pdf".
Proof. split; reflexivity. Qed.

(** C10, as stated, fails: [a.pdf] and [a.pdf.] are distinct raw names
    with the same sanitised name; once [a.pdf] is stored, the upload of
    [a.pdf.] is turned away by the extension check, not as a duplicate. *)
Lemma same_sanitised_name_not_duplicate :
  lit "a.pdf." ≠ lit "a.pdf"
  ∧ secure_filename_ascii (lit "a.pdf.") = secure_filename_ascii (lit "a.pdf")
  ∧ upload_document secure_filename_ascii ascii_lower uploads sample_doc_id
      (Some (sample_file "a.pdf")) empty_world
    = Some ((JUpload (lit "Document uploaded and processed successfully")
               (lit "a.pdf") sample_doc_id 1 74, 200), sample_world "a.pdf")
  ∧ upload_document secure_filename_ascii ascii_lower uploads other_doc_id
      (Some (sample_file "a.pdf.")) (sample_world "a.pdf")
    = Some ((JError (lit "Only PDF files are allowed"), 400),
            sample_world "a.pdf").
Proof.
  split; [done|]. split; [by vm_compute|]. split.
  - by rewrite sample_upload.
  - reflexivity.
Qed.

Lemma upload_sanitised_name_witness :
  upload_document secure_filename_ascii ascii_lower uploads other_doc_id
    (Some (sample_file "my_file.PDF")) (sample_world "my file.PDF")
  = Some ((JError (lit "File already uploaded. Please delete the existing file first or upload a different file."),
           400), sample_world "my file.PDF").
Proof.
  destruct (upload_sanitised_name secure_filename_ascii ascii_lower uploads
              sample_doc_id (sample_file "my file.PDF") empty_world
              (sample_world "my file.PDF")
              (JUpload (lit "Document uploaded and processed successfully")
                 (lit "my_file.PDF") sample_doc_id 1 74))
    as (_ & _ & _ & Hdup & _).
  - apply sample_upload; [discriminate|vm_compute; reflexivity].
  - apply Hdup; vm_compute; reflexivity.
Defined.

Lemma sample_world_collection (name : string) :
  collection (sample_world name)
  = Some [new_entry sample_doc_id (secure_filename_ascii (lit name)) 0
            (sample_text ++ newline)].
Proof. reflexivity. Qed.

Lemma sample_store_ok :
  store_ok [new_entry sample_doc_id (secure_filename_ascii (lit "a.pdf")) 0
              (sample_text ++ newline)].
Proof.
  split.
  - apply NoDup_singleton.
  - intros e He. apply list_elem_of_singleton in He as ->. by vm_compute.
Qed.

Lemma chat_empty_index_witness :
  chat first_records (Some failing_model) (Body (Some (lit "What is RAG?")))
    empty_world
  = (JChat (lit "I don't have any documents to reference. Please upload a PDF document first.") [],
     200).
Proof.
  apply chat_empty_index; [apply first_records_sound|reflexivity].
Defined.

Lemma chat_generation_failure_witness :
  chat first_records (Some failing_model) (Body (Some (lit "What is RAG?")))
    (sample_world "report.pdf")
  = (JChat (lit "Error generating response: 429 Resource has been exhausted")
       [lit "report.pdf"], 200).
Proof.
  apply (chat_generation_failure first_records failing_model
           (lit "What is RAG?") (sample_world "report.pdf")
           [new_entry sample_doc_id (lit "report.pdf") 0
              (sample_text ++ newline)]
           (lit "429 Resource has been exhausted")).
  - reflexivity.
  - vm_compute. discriminate.
  - reflexivity.
Defined.

Lemma upload_duplicate_rejected_witness :
  ∃ msg : str,
    upload_document secure_filename_ascii ascii_lower uploads other_doc_id
      (Some (sample_file "a.pdf")) (sample_world "a.pdf")
    = Some ((JError msg, 400), sample_world "a.pdf")
    ∧ (allowed_file ascii_lower (file_filename (sample_file "a.pdf")) = true →
       msg = lit "File already uploaded. Please delete the existing file first or upload a different file.").
Proof.
  apply (upload_duplicate_rejected secure_filename_ascii ascii_lower uploads
           other_doc_id (sample_file "a.pdf") (sample_world "a.pdf")
           [new_entry sample_doc_id (lit "a.pdf") 0 (sample_text ++ newline)]
           (new_entry sample_doc_id (lit "a.pdf") 0 (sample_text ++ newline))).
  - reflexivity.
  - left.
  - vm_compute. reflexivity.
Defined.

Lemma delete_document_spec_witness :
  ∃ (fname : str) (w' : World),
    delete_document uploads sample_doc_id (sample_world "a.pdf")
    = ((JDelete (lit "Document deleted successfully") fname 1, 200), w')
    ∧ collection w' = Some []
    ∧ upload_dir w' !! os_path_join uploads fname = None.
Proof.
  destruct (delete_document_spec uploads sample_doc_id (sample_world "a.pdf")
              [new_entry sample_doc_id (secure_filename_ascii (lit "a.pdf")) 0
                 (sample_text ++ newline)])
    as [_ Hfound].
  - reflexivity.
  - apply sample_store_ok.
  - destruct Hfound as (fname & w' & Heq & _ & Hcoll & _ & Hfile & _).
    + vm_compute. discriminate.
    + exists fname, w'. split; [exact Heq|]. split; [exact Hcoll|exact Hfile].
Defined.

Lemma extract_text_fallback_witness :
  extract_text_from_pdf
    {[ lit "uploads/scan.pdf" := scanned_pdf (lit "Invoice 42") ]}
    (lit "uploads/scan.pdf")
  = Ok (lit "Invoice 42" ++ newline).
Proof.
  destruct (extract_text_fallback
              {[ lit "uploads/scan.pdf" := scanned_pdf (lit "Invoice 42") ]}
              (lit "uploads/scan.pdf") (scanned_pdf (lit "Invoice 42")))
    as [_ Hok].
  - vm_compute. reflexivity.
  - destruct (Hok []) as [Hocr _].
    + reflexivity.
    + vm_compute. reflexivity.
    + destruct (Hocr (lit "Invoice 42" ++ newline)) as [Hlonger _].
      * reflexivity.
      * apply Hlonger. vm_compute. reflexivity.
Defined.

(** ** Well-formed stores are kept *)

Lemma lit_inj (s t : string) : lit s = lit t → s = t.
Proof.
  intros H. unfold lit in H.
  rewrite <- (string_of_list_ascii_of_string s),
          <- (string_of_list_ascii_of_string t).
  f_equal. revert H.
  generalize (list_ascii_of_string s) (list_ascii_of_string t).
  intros l1. induction l1 as [|a l1 IH]; intros [|b l2] H; try done.
  cbn in H. injection H as Hab Hl. f_equal; [|by apply IH].
  by rewrite <- (ascii_N_embedding a), <- (ascii_N_embedding b), Hab.
Qed.

Lemma decimal_inj (i j : nat) : decimal i = decimal j → i = j.
Proof.
  intros H. apply lit_inj in H. apply DecimalNat.Unsigned.to_uint_inj.
  assert (Some (Nat.to_uint i) = Some (Nat.to_uint j)) as E; [|by injection E].
  by rewrite <- !NilEmpty.usu, H.
Qed.

Lemma new_entries_NoDup (doc name : str) (chunks : list str) :
  NoDup (chunk_id <$> imap (new_entry doc name) chunks).
Proof.
  apply NoDup_alt. intros i j x Hi Hj.
  rewrite list_lookup_fmap, list_lookup_imap in Hi, Hj.
  destruct (chunks !! i) as [ci|]; [|done].
  destruct (chunks !! j) as [cj|]; [|done].
  cbn [fmap option_fmap option_map chunk_id new_entry] in Hi, Hj.
  rewrite <- Hi in Hj. clear Hi.
  assert (doc ++ lit "_chunk_" ++ decimal j = doc ++ lit "_chunk_" ++ decimal i)
    as E by congruence.
  rewrite !app_assoc in E. apply app_inv_head in E.
  by apply decimal_inj.
Qed.

Lemma store_ok_nil : store_ok [].
Proof. split; [apply NoDup_nil_2|]. intros e He. by apply elem_of_nil in He. Qed.

(** [collection.delete] keeps a store well-formed. *)
Lemma store_ok_delete (c : list Entry) (ids : list str) :
  store_ok c → store_ok (collection_delete c ids).
Proof.
  intros [Hnd Hname]. unfold collection_delete. split.
  - eapply sublist_NoDup; [exact Hnd|]. apply fmap_sublist, sublist_filter.
  - intros e He. apply list_elem_of_filter in He as [_ He]. by apply Hname.
Qed.

(** [collection.add] of the records of one upload keeps a store
    well-formed, when the name is not empty and the ids are new. *)
Lemma store_ok_add (c : list Entry) (doc name : str) (chunks : list str) :
  store_ok c →
  name ≠ [] →
  (∀ e i, e ∈ c → chunk_id e ≠ doc ++ lit "_chunk_" ++ decimal i) →
  store_ok (collection_add c (imap (new_entry doc name) chunks)).
Proof.
  intros [Hnd Hname] Hne Hfresh. unfold collection_add. split.
  - rewrite fmap_app. apply NoDup_app. split; [done|].
    split; [|apply new_entries_NoDup].
    intros x Hx Hx'. apply list_elem_of_fmap in Hx as (e & -> & He).
    apply list_elem_of_fmap in Hx' as (e' & Heq & He').
    apply elem_of_lookup_imap in He' as (i & chunk & -> & _).
    by apply (Hfresh e i).
  - intros e He. apply elem_of_app in He as [He|He]; [by apply Hname|].
    by apply elem_of_lookup_imap in He as (i & chunk & -> & _).
Qed.

Section StoreInvariant.

Context (secure_filename lower : str → str).
Context (UPLOAD_FOLDER : str).

(** What werkzeug guarantees for a name that passed [allowed_file]: the
    letters of the extension survive. *)
Hypothesis secure_filename_nonempty :
  ∀ raw, allowed_file lower raw = true → secure_filename raw ≠ [].

(** An upload keeps the store well-formed, whatever its answer, when the
    drawn [doc_id] yields ids that are not in the index. *)
Lemma upload_document_store_ok (uuid4 : str) (file_ : option FileStorage)
    (w w' : World) (r : Json * Z) (c : list Entry) :
  upload_document secure_filename lower UPLOAD_FOLDER uuid4 file_ w
  = Some (r, w') →
  collection w = Some c →
  store_ok c →
  (∀ e i, e ∈ c → chunk_id e ≠ uuid4 ++ lit "_chunk_" ++ decimal i) →
  ∃ c', collection w' = Some c' ∧ store_ok c'.
Proof.
  intros Hup Hc Hok Hfresh. unfold upload_document in Hup.
  destruct file_ as [file|]; [|injection Hup as <- <-; eauto].
  destruct (truthy (file_filename file)); cbn [negb] in Hup;
    [|injection Hup as <- <-; eauto].
  destruct (allowed_file lower (file_filename file)) eqn:Hal;
    cbn [negb] in Hup; [|injection Hup as <- <-; eauto].
  destruct (filename_stored _ w); [injection Hup as <- <-; eauto|].
  unfold set_upload_dir in Hup. cbn [upload_dir collection] in Hup.
  destruct (extract_text_from_pdf _ _) as [text|e];
    [|injection Hup as <- <-; eauto].
  destruct (truthy (strip text)); cbn [negb] in Hup;
    [|injection Hup as <- <-; eauto].
  unfold store_in_chromadb in Hup. cbn [collection] in Hup.
  rewrite Hc, chunk_text_default in Hup. injection Hup as <- <-.
  eexists. split; [reflexivity|]. apply store_ok_add; auto.
Qed.

(** So does a deletion. *)
Lemma delete_document_store_ok (doc : str) (w : World) (c : list Entry) :
  collection w = Some c →
  store_ok c →
  ∃ c', collection (delete_document UPLOAD_FOLDER doc w).2 = Some c'
        ∧ store_ok c'.
Proof.
  intros Hc Hok. unfold delete_document. rewrite Hc.
  destruct (find_filename doc c) as [[|ch name]|]; cbn [snd]; eauto.
  generalize (if truthy (chunk_id <$> c) then chunk_id <$> chunks_of doc c
              else []).
  intros ids. destruct (truthy ids); case_bool_decide;
    cbn [collection set_upload_dir set_collection];
    eauto using store_ok_delete.
Qed.

End StoreInvariant.

(** ** The ASCII stand-ins meet the assumption on names *)

Lemma split_last_Some (sep : char) (s a b : str) :
  split_last sep s = Some (a, b) → s = a ++ sep :: b.
Proof.
  revert a b. induction s as [|c s IH]; intros a b H; [done|].
  cbn [split_last] in H. destruct (split_last sep s) as [[a' b']|].
  - injection H as <- <-. cbn [app]. f_equal. by apply IH.
  - destruct (N.eqb_spec c sep) as [->|]; [|done]. by injection H as <- <-.
Qed.

Lemma allowed_file_extension (lower : str → str) (raw : str) :
  allowed_file lower raw = true →
  ∃ a ext, raw = a ++ dot :: ext ∧ lower ext = lit "pdf".
Proof.
  unfold allowed_file, rsplit1. intros H.
  apply andb_true_iff in H as [_ H].
  destruct (split_last dot raw) as [[a ext]|] eqn:E; [|done].
  cbn in H. apply bool_decide_eq_true in H.
  apply list_elem_of_singleton in H.
  exists a, ext. split; [by apply split_last_Some|done].
Qed.

Lemma ascii_lower_pdf (ext : str) :
  ascii_lower ext = lit "pdf" →
  ∃ c rest, ext = c :: rest ∧ (c = 80 ∨ c = 112)%N.
Proof.
  destruct ext as [|c rest]; [done|]. intros H. exists c, rest.
  split; [done|]. cbn in H. injection H as H _.
  destruct ((65 <=? c) && (c <=? 90))%N; lia.
Qed.

Lemma join_cons_elem (sep p : str) (ps : list str) (x : N) :
  x ∈ p ∨ x ∈ join sep ps → x ∈ join sep (p :: ps).
Proof.
  destruct ps as [|q ps].
  - intros [H|H]; [done|]. by apply elem_of_nil in H.
  - intros [H|H]; cbn [join]; rewrite !elem_of_app; [by left|]. right. by right.
Qed.

Lemma split_ws_elem (sep s cur : str) (x : N) :
  is_space x = false → x ∈ cur ++ s → x ∈ join sep (split_ws s cur).
Proof.
  intros Hx. revert cur. induction s as [|c s IH]; intros cur Hin.
  - rewrite app_nil_r in Hin. cbn [split_ws]. by destruct cur.
  - cbn [split_ws]. destruct (is_space c) eqn:Hc.
    + assert (x ∈ cur ∨ x ∈ s) as [H|H].
      { apply elem_of_app in Hin as [H|H]; [by left|].
        apply elem_of_cons in H as [->|H]; [congruence|by right]. }
      * destruct cur as [|c0 cur]; [by apply elem_of_nil in H|].
        cbn [truthy]. apply join_cons_elem. by left.
      * destruct (truthy cur); [apply join_cons_elem; right|]; by apply IH.
    + apply IH. by rewrite <- app_assoc.
Qed.

Lemma lstrip_chars_elem (chars s : str) (x : N) :
  x ∉ chars → x ∈ s → x ∈ lstrip_chars chars s.
Proof.
  intros Hx. induction s as [|c s IH]; intros Hin; [done|].
  cbn [lstrip_chars]. case_bool_decide as Hc; [|done].
  apply elem_of_cons in Hin as [->|Hin]; [done|by apply IH].
Qed.

Lemma elem_of_rev (s : str) (x : N) : x ∈ s → x ∈ rev s.
Proof.
  intros H. apply list_elem_of_In. rewrite <- in_rev.
  by apply list_elem_of_In.
Qed.

(** A letter of the raw name survives [secure_filename_ascii]. *)
Lemma secure_filename_ascii_keeps (raw : str) (x : N) :
  x ∈ raw →
  is_space x = false → filename_char x = true → x ∉ lit "._" → x ≠ slash →
  x ∈ secure_filename_ascii raw.
Proof.
  intros Hin Hsp Hch Hstrip Hsl. unfold secure_filename_ascii, strip_chars.
  apply elem_of_rev, lstrip_chars_elem, elem_of_rev, lstrip_chars_elem;
    try done.
  apply list_elem_of_filter. split; [done|].
  apply split_ws_elem; [done|]. rewrite app_nil_l.
  apply list_elem_of_fmap. exists x. split; [|done].
  destruct (N.eqb_spec x slash); [done|done].
Qed.

Lemma secure_filename_ascii_nonempty (raw : str) :
  allowed_file ascii_lower raw = true → secure_filename_ascii raw ≠ [].
Proof.
  intros Hal. apply allowed_file_extension in Hal as (a & ext & -> & Hext).
  apply ascii_lower_pdf in Hext as (c & rest & -> & Hc).
  assert (c ∈ secure_filename_ascii (a ++ dot :: c :: rest)) as Hin.
  { apply secure_filename_ascii_keeps.
    - apply elem_of_app. right. right. by left.
    - by destruct Hc as [-> | ->].
    - by destruct Hc as [-> | ->].
    - destruct Hc as [-> | ->]; intros H;
        repeat (apply elem_of_cons in H as [H|H]; [done|]);
        by apply elem_of_nil in H.
    - by destruct Hc as [-> | ->]. }
  intros E. rewrite E in Hin. by apply elem_of_nil in Hin.
Qed.


(** * Further properties of the module *)

(** ** [chunk_text] with any size and overlap *)

Section Stride.

Context (text : str) (chunk_size overlap : Z).
Hypothesis stride_pos : 0 < chunk_size - overlap.

Local Abbreviation stride := (chunk_size - overlap).
Local Abbreviation count := (Z.to_nat (ceil_div (py_len text) stride)).
Local Abbreviation slice_at i :=
  (py_slice text (Z.of_nat i * stride) (Z.of_nat i * stride + chunk_size)).

Lemma ceil_div_bounds :
  stride * ceil_div (py_len text) stride ≤ py_len text + stride - 1
  ∧ py_len text + stride - 1 < stride * ceil_div (py_len text) stride + stride
  ∧ 0 ≤ ceil_div (py_len text) stride.
Proof.
  unfold ceil_div.
  pose proof (Z.mul_div_le (py_len text + stride - 1) stride stride_pos).
  pose proof (Z.mul_succ_div_gt (py_len text + stride - 1) stride stride_pos).
  assert (0 ≤ py_len text) by (unfold py_len; lia).
  split; [lia|]. split; [lia|]. apply Z.div_pos; lia.
Qed.

Lemma count_spec (i : nat) :
  (i < count)%nat ↔ Z.of_nat i * stride < py_len text.
Proof.
  destruct ceil_div_bounds as (H1 & H2 & H3). split; intros H; nia.
Qed.

Lemma count_le_length : (count ≤ length text)%nat.
Proof.
  destruct ceil_div_bounds as (H1 & H2 & H3). unfold py_len in *. nia.
Qed.

Lemma chunk_loop_stride (fuel j : nat) (acc : list str) :
  (count - j < fuel)%nat →
  (j ≤ count)%nat →
  chunk_loop fuel text chunk_size overlap (Z.of_nat j * stride) acc
  = Some (acc ++ ((λ i, slice_at i) <$> seq j (count - j))).
Proof.
  revert j acc. induction fuel as [|fuel IH]; intros j acc Hf Hj; [lia|].
  cbn [chunk_loop].
  destruct (Z.ltb_spec (Z.of_nat j * stride) (py_len text)) as [Hlt|Hge].
  - assert (j < count)%nat as Hj' by (by apply count_spec).
    replace (Z.of_nat j * stride + stride) with (Z.of_nat (S j) * stride)
      by lia.
    rewrite IH by lia.
    replace (count - j)%nat with (S (count - S j)) by lia.
    cbn [seq fmap list_fmap]. by rewrite <- app_assoc.
  - assert (¬ (j < count)%nat) as Hj' by (rewrite count_spec; lia).
    replace (count - j)%nat with 0%nat by lia.
    cbn. by rewrite app_nil_r.
Qed.

Lemma chunk_text_stride_eq :
  chunk_text text chunk_size overlap
  = Some ((λ i, slice_at i) <$> seq 0 count).
Proof.
  unfold chunk_text. pose proof count_le_length.
  change 0 with (Z.of_nat 0 * stride).
  rewrite chunk_loop_stride by lia. by rewrite Nat.sub_0_r.
Qed.

End Stride.

Lemma slice_at_take_drop (text : str) (chunk_size overlap : Z) (i : nat) :
  0 < chunk_size - overlap →
  0 ≤ chunk_size →
  py_slice text (Z.of_nat i * (chunk_size - overlap))
    (Z.of_nat i * (chunk_size - overlap) + chunk_size)
  = take (Z.to_nat chunk_size)
      (drop (i * Z.to_nat (chunk_size - overlap)) text).
Proof.
  intros Hs Hsize.
  rewrite <- (py_slice_take_drop text (i * Z.to_nat (chunk_size - overlap))
                (Z.to_nat chunk_size)).
  f_equal; lia.
Qed.

Lemma strided_prefix (text : str) (s n : nat) :
  mjoin ((λ i, take s (drop (i * s) text)) <$> seq 0 n) = take (n * s) text.
Proof.
  induction n as [|n IH]; [done|].
  rewrite seq_S, fmap_app, join_app, IH.
  cbn [fmap list_fmap mjoin list_join Nat.add].
  rewrite app_nil_r, take_take_drop. f_equal. lia.
Qed.

(** X2. Whenever [chunk_size - overlap] is positive, [chunk_text] returns;
    it returns [ceil(len(text) / (chunk_size - overlap))] chunks, and chunk
    [i] is the slice [text[i*stride : i*stride + chunk_size]]. *)
Theorem chunk_text_stride (text : str) (chunk_size overlap : Z) :
  0 < chunk_size - overlap →
  ∃ ws : list str,
    chunk_text text chunk_size overlap = Some ws
    ∧ py_len ws = ceil_div (py_len text) (chunk_size - overlap)
    ∧ ∀ (i : nat) (w : str), ws !! i = Some w →
        w = py_slice text (Z.of_nat i * (chunk_size - overlap))
              (Z.of_nat i * (chunk_size - overlap) + chunk_size).
Proof.
  intros Hs. eexists. split; [by apply chunk_text_stride_eq|]. split.
  - unfold py_len at 1. rewrite length_fmap, length_seq.
    destruct (ceil_div_bounds text chunk_size overlap Hs) as (_ & _ & H).
    lia.
  - intros i w Hw. rewrite list_lookup_fmap in Hw.
    destruct (seq 0 _ !! i) as [j|] eqn:E; [|done].
    apply lookup_seq in E as [-> _]. by injection Hw as <-.
Qed.

Lemma chunk_text_stride_witness :
  ∃ ws : list str,
    chunk_text (lit "abcdefghij") 4 1 = Some ws
    ∧ py_len ws = ceil_div (py_len (lit "abcdefghij")) (4 - 1)
    ∧ ∀ (i : nat) (w : str), ws !! i = Some w →
        w = py_slice (lit "abcdefghij") (Z.of_nat i * (4 - 1))
              (Z.of_nat i * (4 - 1) + 4).
Proof. apply (chunk_text_stride (lit "abcdefghij") 4 1). lia. Defined.

(** X3. On a non-empty text, when [overlap] is at least [chunk_size] the
    loop of [chunk_text] never ends: it fails to return with every amount
    of fuel. *)
Theorem chunk_text_no_progress (text : str) (chunk_size overlap : Z) :
  text ≠ [] →
  chunk_size ≤ overlap →
  (∀ fuel, chunk_loop fuel text chunk_size overlap 0 [] = None)
  ∧ chunk_text text chunk_size overlap = None.
Proof.
  intros Hne Hle.
  assert (0 < py_len text) by (destruct text; [done|unfold py_len; cbn; lia]).
  split; [intros fuel|unfold chunk_text]; apply chunk_loop_stalls; lia.
Qed.

Lemma chunk_text_no_progress_witness :
  (∀ fuel, chunk_loop fuel (lit "abc") 200 200 0 [] = None)
  ∧ chunk_text (lit "abc") 200 200 = None.
Proof. apply chunk_text_no_progress; [discriminate|lia]. Defined.

(** X4. When [overlap] is not negative and smaller than [chunk_size], the
    text is recovered from the chunks by keeping the first
    [chunk_size - overlap] characters of each and concatenating. *)
Theorem chunk_text_reconstructs (text : str) (chunk_size overlap : Z) :
  0 < chunk_size - overlap →
  0 ≤ overlap →
  ∃ ws : list str,
    chunk_text text chunk_size overlap = Some ws
    ∧ mjoin (take (Z.to_nat (chunk_size - overlap)) <$> ws) = text.
Proof.
  intros Hs Hov. eexists. split; [by apply chunk_text_stride_eq|].
  rewrite <- list_fmap_compose.
  rewrite (list_fmap_ext _
             (λ i, take (Z.to_nat (chunk_size - overlap))
                     (drop (i * Z.to_nat (chunk_size - overlap)) text))).
  - rewrite strided_prefix. apply take_ge.
    destruct (ceil_div_bounds text chunk_size overlap Hs) as (H1 & H2 & H3).
    unfold py_len in *. nia.
  - intros _ i _. cbn [compose].
    rewrite slice_at_take_drop by lia. rewrite take_take. f_equal. lia.
Qed.

Lemma chunk_text_reconstructs_witness :
  ∃ ws : list str,
    chunk_text (letters 2500) 1000 200 = Some ws
    ∧ mjoin (take (Z.to_nat (1000 - 200)) <$> ws) = letters 2500.
Proof. apply chunk_text_reconstructs; lia. Defined.

(** X5. With a positive stride and a positive [chunk_size], no chunk is
    empty and none has more than [chunk_size] characters. *)
Theorem chunk_text_chunk_bounds (text : str) (chunk_size overlap : Z)
    (ws : list str) (w : str) :
  0 < chunk_size - overlap →
  0 < chunk_size →
  chunk_text text chunk_size overlap = Some ws →
  w ∈ ws →
  1 ≤ py_len w ≤ chunk_size.
Proof.
  intros Hs Hsize Hws Hw. rewrite chunk_text_stride_eq in Hws by done.
  injection Hws as <-. apply list_elem_of_fmap in Hw as (i & -> & Hi).
  apply elem_of_seq in Hi as [_ Hi]. cbn in Hi.
  apply (count_spec text chunk_size overlap Hs) in Hi.
  rewrite slice_at_take_drop by lia. unfold py_len in *.
  rewrite length_take, length_drop. nia.
Qed.

Lemma chunk_text_chunk_bounds_witness : 1 ≤ py_len (lit "j") ≤ 4.
Proof.
  apply (chunk_text_chunk_bounds (lit "abcdefghij") 4 1
           [lit "abcd"; lit "defg"; lit "ghij"; lit "j"]).
  - lia.
  - lia.
  - reflexivity.
  - do 3 right. left.
Defined.

(** ** [allowed_file] *)

Lemma split_last_None (sep : char) (s : str) :
  sep ∉ s → split_last sep s = None.
Proof.
  induction s as [|c s IH]; intros Hs; [done|].
  cbn [split_last]. rewrite IH by (intros H; apply Hs; by right).
  destruct (N.eqb_spec c sep) as [->|]; [|done].
  exfalso. apply Hs. by left.
Qed.

Lemma split_last_app (sep : char) (a b : str) :
  sep ∉ b → split_last sep (a ++ sep :: b) = Some (a, b).
Proof.
  intros Hb. induction a as [|c a IH].
  - cbn [app split_last]. by rewrite split_last_None, N.eqb_refl.
  - cbn [app split_last]. by rewrite IH.
Qed.

Lemma split_last_notin (sep : char) (s a b : str) :
  split_last sep s = Some (a, b) → sep ∉ b.
Proof.
  revert a b. induction s as [|c s IH]; intros a b H; [done|].
  cbn [split_last] in H. destruct (split_last sep s) as [[a' b']|] eqn:E.
  - injection H as <- <-. by eapply IH.
  - destruct (N.eqb_spec c sep) as [->|]; [|done]. injection H as <- <-.
    intros Hin. revert E. clear -Hin.
    induction s as [|x s IH]; [by apply elem_of_nil in Hin|].
    cbn [split_last]. destruct (split_last sep s) as [[? ?]|] eqn:E; [done|].
    apply elem_of_cons in Hin as [->|Hin]; [by rewrite N.eqb_refl|].
    by apply IH in Hin.
Qed.

(** X1. [allowed_file] accepts exactly the names of the form
    [stem.ext] in which [ext] holds no further dot and lowercases to
    [pdf]: the extension is what follows the last dot, and a name without
    a dot or ending in a dot is refused. *)
Theorem allowed_file_iff (lower : str → str) (name : str) :
  allowed_file lower name = true ↔
  ∃ stem ext : str,
    name = stem ++ dot :: ext ∧ (dot ∉ ext) ∧ lower ext = lit "pdf".
Proof.
  unfold allowed_file, rsplit1. split.
  - intros H. apply andb_true_iff in H as [_ H].
    destruct (split_last dot name) as [[a ext]|] eqn:E; [|done].
    cbn in H. apply bool_decide_eq_true, list_elem_of_singleton in H.
    exists a, ext. split; [by apply split_last_Some|].
    split; [by eapply split_last_notin|done].
  - intros (stem & ext & -> & Hdot & Hext).
    rewrite split_last_app by done. apply andb_true_iff. split.
    + apply bool_decide_eq_true, elem_of_app. right. by left.
    + cbn. apply bool_decide_eq_true. rewrite Hext. by left.
Qed.

(** ** [extract_text_from_pdf] *)

Lemma read_pages_ok (pages : list str) (acc : str) :
  read_pages (Ok <$> pages) acc
  = Ok (acc ++ mjoin ((λ p, p ++ newline) <$> filter (λ p, p ≠ []) pages)).
Proof.
  revert acc. induction pages as [|p pages IH]; intros acc.
  - cbn. by rewrite app_nil_r.
  - cbn [fmap list_fmap read_pages]. rewrite IH, filter_cons.
    destruct p as [|c p].
    + by rewrite decide_False by (intros H; by apply H).
    + rewrite decide_True by done.
      cbn [truthy fmap list_fmap mjoin list_join].
      by rewrite <- !app_assoc.
Qed.

(** X6. When the reader opens the file and every page yields its text, the
    text of the primary pass is the concatenation, in page order, of the
    non-empty page texts, each followed by one line feed; pages without
    text contribute nothing. *)
Theorem primary_pass_text (pdf : Pdf) (pages : list str) :
  text_layer pdf = Ok (Ok <$> pages) →
  primary_pass pdf
  = Ok (mjoin ((λ p, p ++ newline) <$> filter (λ p, p ≠ []) pages)).
Proof.
  intros H. unfold primary_pass. rewrite H. cbn [exc_bind].
  by rewrite read_pages_ok.
Qed.

Lemma primary_pass_text_witness :
  primary_pass {| text_layer := Ok [Ok (lit "one"); Ok []; Ok (lit "two")];
                  ocr_layer := Ok []; ocr_close := Ok () |}
  = Ok (lit "one" ++ newline ++ lit "two" ++ newline).
Proof.
  apply (primary_pass_text _ [lit "one"; []; lit "two"]). reflexivity.
Defined.

(** X7. Once the primary pass has produced a text, extraction returns, and
    what it returns is never shorter after trimming than the primary text:
    it is the primary text, or else the text of a completed OCR pass, the
    latter only when the primary text has fewer than 50 characters after
    trimming. *)
Theorem extract_text_longest (dir : gmap str Pdf) (pdf_path : str)
    (pdf : Pdf) (text : str) :
  dir !! pdf_path = Some pdf →
  primary_pass pdf = Ok text →
  ∃ r : str,
    extract_text_from_pdf dir pdf_path = Ok r
    ∧ py_len (strip text) ≤ py_len (strip r)
    ∧ (r = text
       ∨ (ocr_pass pdf = Ok r ∧ py_len (strip text) < 50
          ∧ py_len (strip text) < py_len (strip r))).
Proof.
  intros Hf Hp. rewrite (extract_ok_cases _ _ _ _ Hf Hp).
  destruct (Z.ltb_spec (py_len (strip text)) 50) as [Hlt|Hge].
  - destruct (ocr_pass pdf) as [ocr_text|e].
    + destruct (py_len (strip ocr_text) >? py_len (strip text)) eqn:E.
      * apply Z.gtb_gt in E. exists ocr_text.
        split; [done|]. split; [lia|]. right. repeat split; [done|lia..].
      * exists text. split; [done|]. split; [lia|by left].
    + exists text. split; [done|]. split; [lia|by left].
  - exists text. split; [done|]. split; [lia|by left].
Qed.

Lemma extract_text_longest_witness :
  ∃ r : str,
    extract_text_from_pdf
      {[ lit "uploads/scan.pdf" := scanned_pdf (lit "Invoice 42") ]}
      (lit "uploads/scan.pdf") = Ok r
    ∧ py_len (strip []) ≤ py_len (strip r)
    ∧ (r = []
       ∨ (ocr_pass (scanned_pdf (lit "Invoice 42")) = Ok r
          ∧ py_len (strip []) < 50 ∧ py_len (strip []) < py_len (strip r))).
Proof.
  apply (extract_text_longest _ _ (scanned_pdf (lit "Invoice 42")) []).
  - vm_compute. reflexivity.
  - reflexivity.
Defined.

(** ** [upload_document]: what a request leaves behind *)

Section UploadOutcomes.

Context (secure_filename lower : str → str).
Context (UPLOAD_FOLDER : str).

Local Abbreviation upload := (upload_document secure_filename lower UPLOAD_FOLDER).
Local Abbreviation path_of raw := (os_path_join UPLOAD_FOLDER (secure_filename raw)).
Local Abbreviation saved file w :=
  (set_upload_dir w
     (<[path_of (file_filename file) := file_content file]> (upload_dir w))).

(** The five ways out of [upload_document] for a request with a file:
    refused before saving; failed after saving; cleaned up after a blank
    extraction; stored. *)
Lemma upload_document_outcome (uuid4 : str) (file : FileStorage)
    (w w' : World) (body : Json) (status : Z) :
  upload uuid4 (Some file) w = Some ((body, status), w') →
  (status = 400 ∧ w' = w ∧ ∃ msg, body = JError msg)
  ∨ (status = 500 ∧ w' = saved file w ∧ ∃ msg, body = JError msg)
  ∨ (status = 400
     ∧ w' = set_upload_dir w (delete (path_of (file_filename file)) (upload_dir w))
     ∧ body = JError (lit "No text could be extracted from PDF"))
  ∨ (status = 200
     ∧ ∃ c text,
         collection w = Some c
         ∧ (∀ e, e ∈ c →
              filename (metadata e) ≠ secure_filename (file_filename file))
         ∧ strip text ≠ []
         ∧ w' = world_after_upload secure_filename UPLOAD_FOLDER uuid4 text
                  file c w
         ∧ body = JUpload (lit "Document uploaded and processed successfully")
                    (secure_filename (file_filename file)) uuid4
                    (py_len (windows text)) (py_len text)).
Proof.
  intros Hup.
  destruct (decide (status = 200)) as [->|Hst].
  { do 3 right. split; [done|].
    apply upload_document_200_inv in Hup
      as (file0 & c & text & [= <-] & _ & _ & Hc & Hfresh & _ & Hstrip & -> & ->).
    eauto 10. }
  unfold upload_document in Hup.
  destruct (truthy (file_filename file)); cbn [negb] in Hup;
    [|injection Hup as <- <- <-; left; eauto].
  destruct (allowed_file lower (file_filename file)); cbn [negb] in Hup;
    [|injection Hup as <- <- <-; left; eauto].
  destruct (filename_stored _ w); cbn [negb] in Hup;
    [injection Hup as <- <- <-; left; eauto|].
  cbn [upload_dir set_upload_dir] in Hup.
  destruct (extract_text_from_pdf _ _) as [text|e];
    [|injection Hup as <- <- <-; right; left; eauto].
  destruct (truthy (strip text)); cbn [negb] in Hup.
  - unfold store_in_chromadb in Hup. unfold set_upload_dir in Hup at 1.
    cbn [collection] in Hup.
    destruct (collection w) as [c|].
    + rewrite chunk_text_default in Hup. injection Hup as <- <- <-. done.
    + injection Hup as <- <- <-. right. left. eauto.
  - injection Hup as <- <- <-. right. right. left.
    split; [done|]. split; [|done].
    unfold set_upload_dir. cbn [collection upload_dir].
    by rewrite delete_insert_eq.
Qed.

(** X8. An upload that is not answered with status 200 carries an error
    body and leaves the index exactly as it was: no chunk is written
    unless the whole request succeeds. *)
Theorem upload_failure_keeps_index (uuid4 : str) (file_ : option FileStorage)
    (w w' : World) (body : Json) (status : Z) :
  upload uuid4 file_ w = Some ((body, status), w') →
  status ≠ 200 →
  collection w' = collection w ∧ ∃ msg, body = JError msg.
Proof.
  intros Hup Hst. destruct file_ as [file|].
  - apply upload_document_outcome in Hup
      as [(_ & -> & ?)|[(_ & -> & ?)|[(_ & -> & ->)|(-> & _)]]]; eauto.
    done.
  - cbn in Hup. injection Hup as <- <- <-. eauto.
Qed.

(** X9. An upload answered with status 500 has saved the file and does not
    remove it again: the upload folder holds the file under the sanitised
    name although the index holds no chunk of it. *)
Theorem upload_error_keeps_file (uuid4 : str) (file : FileStorage)
    (w w' : World) (body : Json) :
  upload uuid4 (Some file) w = Some ((body, 500), w') →
  upload_dir w' !! path_of (file_filename file) = Some (file_content file)
  ∧ collection w' = collection w.
Proof.
  intros Hup.
  apply upload_document_outcome in Hup
    as [([=] & _)|[(_ & -> & _)|[([=] & _)|([=] & _)]]].
  split; [apply lookup_insert_eq|done].
Qed.

(** X10. Whatever the answer, an upload touches no path of the upload
    folder other than the one of its own sanitised name. *)
Theorem upload_touches_one_path (uuid4 : str) (file : FileStorage)
    (w w' : World) (r : Json * Z) (p : str) :
  upload uuid4 (Some file) w = Some (r, w') →
  p ≠ path_of (file_filename file) →
  upload_dir w' !! p = upload_dir w !! p.
Proof.
  intros Hup Hp. destruct r as [body status].
  apply upload_document_outcome in Hup
    as [(_ & -> & _)|[(_ & -> & _)|[(_ & -> & _)|(_ & c & text & _ & _ & _ & -> & _)]]];
    cbn [upload_dir set_upload_dir world_after_upload]; try done.
  - by apply lookup_insert_ne.
  - by apply lookup_delete_ne.
  - by apply lookup_insert_ne.
Qed.

(** X11. When the extracted text is blank, the upload is answered 400 with
    [No text could be extracted from PDF], the index is unchanged, and
    the path of the sanitised name is left without a file, also when one
    was stored there before. *)
Theorem upload_blank_text (uuid4 text : str) (file : FileStorage) (w : World) :
  allowed_file lower (file_filename file) = true →
  filename_stored (secure_filename (file_filename file)) w = false →
  extract_text_from_pdf
    (<[path_of (file_filename file) := file_content file]> (upload_dir w))
    (path_of (file_filename file)) = Ok text →
  strip text = [] →
  ∃ w' : World,
    upload uuid4 (Some file) w
    = Some ((JError (lit "No text could be extracted from PDF"), 400), w')
    ∧ collection w' = collection w
    ∧ upload_dir w' !! path_of (file_filename file) = None.
Proof.
  intros Hal Hst Hext Hblank. unfold upload_document.
  rewrite (proj2 (truthy_true _)) by (by eapply allowed_file_nonempty).
  rewrite Hal, Hst. cbn [negb upload_dir set_upload_dir].
  rewrite Hext, Hblank. cbn [truthy negb].
  eexists. split; [reflexivity|]. split; [done|].
  cbn [upload_dir set_upload_dir]. apply lookup_delete_eq.
Qed.

(** X12. On a server whose index is not initialised, the duplicate check
    is skipped: an upload with an allowed name and a non-blank text saves
    the file and is then answered 500 with
    [ChromaDB collection not initialized]. *)
Theorem upload_without_index (uuid4 text : str) (file : FileStorage)
    (w : World) :
  collection w = None →
  allowed_file lower (file_filename file) = true →
  extract_text_from_pdf
    (<[path_of (file_filename file) := file_content file]> (upload_dir w))
    (path_of (file_filename file)) = Ok text →
  strip text ≠ [] →
  upload uuid4 (Some file) w
  = Some ((JError (lit "ChromaDB collection not initialized"), 500),
          {| collection := None;
             upload_dir :=
               <[path_of (file_filename file) := file_content file]>
                 (upload_dir w) |}).
Proof.
  intros Hc Hal Hext Hstrip. unfold upload_document.
  rewrite (proj2 (truthy_true _)) by (by eapply allowed_file_nonempty).
  rewrite Hal. cbn [negb]. unfold filename_stored. rewrite Hc.
  cbn [upload_dir set_upload_dir]. rewrite Hext.
  rewrite (proj2 (truthy_true _)) by done. cbn [negb].
  unfold store_in_chromadb, set_upload_dir. cbn [collection]. by rewrite Hc.
Qed.

(** X13. In a 200 answer the reported fields agree with each other and
    with the index: [doc_id] is the identifier drawn for the request,
    [text_length] is at least 1, [chunks] is [ceil(text_length / 800)],
    hence at least 1, and the index has grown by exactly [chunks]
    records, appended after the old ones. *)
Theorem upload_response_fields (uuid4 : str) (file : FileStorage)
    (w w' : World) (message name doc : str) (chunks text_length : Z) :
  upload uuid4 (Some file) w
  = Some ((JUpload message name doc chunks text_length, 200), w') →
  doc = uuid4
  ∧ 1 ≤ text_length
  ∧ chunks = ceil_div text_length 800
  ∧ 1 ≤ chunks
  ∧ ∃ c new : list Entry,
      collection w = Some c ∧ collection w' = Some (c ++ new)
      ∧ py_len new = chunks.
Proof.
  intros Hup.
  apply upload_document_200_inv in Hup
    as (file0 & c & text & [= <-] & _ & _ & Hc & _ & _ & Hstrip & Hbody & ->).
  injection Hbody as -> -> -> -> ->.
  assert (text ≠ []) as Hne by (by apply strip_nonempty).
  assert (1 ≤ py_len text)
    by (destruct text; [done|unfold py_len; cbn [length]; lia]).
  unfold py_len in *. rewrite windows_length.
  split; [done|]. split; [done|].
  assert (Z.of_nat (window_count (length text))
          = ceil_div (Z.of_nat (length text)) 800) as Hcount.
  { unfold window_count, ceil_div. rewrite Nat2Z.inj_div, Nat2Z.inj_add.
    f_equal; lia. }
  split; [done|]. split.
  - pose proof (proj2 (window_count_spec (length text) 0)). lia.
  - eexists c, _. split; [done|]. split; [reflexivity|].
    by rewrite length_imap, windows_length.
Qed.

Lemma names_unique_filter (P : Entry → Prop) `{∀ e, Decision (P e)}
    (c : list Entry) :
  names_unique c → names_unique (filter P c).
Proof.
  intros Hu e1 e2 H1 H2. apply list_elem_of_filter in H1 as [_ H1].
  apply list_elem_of_filter in H2 as [_ H2]. by apply Hu.
Qed.

Lemma names_unique_add (c : list Entry) (doc name : str) (chunks : list str) :
  names_unique c →
  (∀ e, e ∈ c → filename (metadata e) ≠ name) →
  names_unique (c ++ imap (new_entry doc name) chunks).
Proof.
  intros Hu Hfresh e1 e2 H1 H2 Heq.
  apply elem_of_app in H1 as [H1|H1], H2 as [H2|H2].
  - by apply Hu.
  - apply elem_of_lookup_imap in H2 as (i & chunk & -> & _).
    by apply Hfresh in H1.
  - apply elem_of_lookup_imap in H1 as (i & chunk & -> & _).
    by apply Hfresh in H2.
  - apply elem_of_lookup_imap in H1 as (i & chunk & -> & _).
    by apply elem_of_lookup_imap in H2 as (j & chunk' & -> & _).
Qed.

(** X14. The duplicate check keeps file names unique: if in the index
    every file name belongs to one document, the same holds after any
    upload, whatever identifier is drawn and whatever the answer. *)
Theorem upload_keeps_names_unique (uuid4 : str) (file_ : option FileStorage)
    (w w' : World) (r : Json * Z) (c : list Entry) :
  upload uuid4 file_ w = Some (r, w') →
  collection w = Some c →
  names_unique c →
  ∃ c', collection w' = Some c' ∧ names_unique c'.
Proof.
  intros Hup Hc Hu. destruct r as [body status].
  destruct file_ as [file|];
    [|cbn in Hup; injection Hup as <- <- <-; eauto].
  apply upload_document_outcome in Hup
    as [(_ & -> & _)|[(_ & -> & _)|[(_ & -> & _)|(_ & c0 & text & Hc0 & Hfresh & _ & -> & _)]]];
    eauto.
  rewrite Hc in Hc0. injection Hc0 as <-.
  eexists. split; [reflexivity|]. by apply names_unique_add.
Qed.

End UploadOutcomes.

(** ** [store_in_chromadb] *)


(** ** [delete_document], [list_documents] and [chat] *)

Lemma new_entries_fresh_NoDup (c : list Entry) (doc name : str)
    (chunks : list str) :
  NoDup (chunk_id <$> c) →
  (∀ e i, e ∈ c → chunk_id e ≠ doc ++ lit "_chunk_" ++ decimal i) →
  NoDup (chunk_id <$> (c ++ imap (new_entry doc name) chunks)).
Proof.
  intros Hnd Hfresh. rewrite fmap_app. apply NoDup_app. split; [done|].
  split; [|apply new_entries_NoDup].
  intros x Hx Hx'. apply list_elem_of_fmap in Hx as (e & -> & He).
  apply list_elem_of_fmap in Hx' as (e' & Heq & He').
  apply elem_of_lookup_imap in He' as (i & chunk & -> & _).
  by apply (Hfresh e i).
Qed.

Lemma chunks_of_collection_delete (doc : str) (c : list Entry) :
  chunks_of doc (collection_delete c (chunk_id <$> chunks_of doc c)) = [].
Proof.
  unfold chunks_of at 1. apply filter_none. intros e He Hdoc.
  unfold collection_delete in He. apply list_elem_of_filter in He as [Hid He].
  apply Hid, list_elem_of_fmap_2. unfold chunks_of.
  by apply list_elem_of_filter.
Qed.

Lemma delete_document_not_found (UPLOAD_FOLDER doc : str) (w : World)
    (c : list Entry) :
  collection w = Some c →
  chunks_of doc c = [] →
  delete_document UPLOAD_FOLDER doc w
  = ((JError (lit "Document not found"), 404), w).
Proof.
  intros Hc Hnone. unfold delete_document.
  by rewrite Hc, find_filename_head, Hnone.
Qed.

Section DocumentLifecycle.

Context (secure_filename lower : str → str).
Context (UPLOAD_FOLDER : str).

Local Abbreviation upload := (upload_document secure_filename lower UPLOAD_FOLDER).
Local Abbreviation delete_doc := (delete_document UPLOAD_FOLDER).

(** X16. Uploading and then deleting the returned [doc_id] is a round
    trip on the index: when the drawn identifier and its chunk ids were
    not in use, the deletion is answered 200 with the file name and the
    chunk count of the upload answer, the index is back to what it was
    before the upload, and the saved file is gone. *)
Theorem upload_then_delete (uuid4 : str) (file : FileStorage) (w w1 : World)
    (c : list Entry) (message name doc : str) (chunks text_length : Z) :
  upload uuid4 (Some file) w
  = Some ((JUpload message name doc chunks text_length, 200), w1) →
  collection w = Some c →
  NoDup (chunk_id <$> c) →
  (∀ e, e ∈ c → doc_id (metadata e) ≠ uuid4) →
  (∀ e i, e ∈ c → chunk_id e ≠ uuid4 ++ lit "_chunk_" ++ decimal i) →
  name ≠ [] →
  ∃ w2 : World,
    delete_doc doc w1
    = ((JDelete (lit "Document deleted successfully") name chunks, 200), w2)
    ∧ collection w2 = Some c
    ∧ upload_dir w2 !! os_path_join UPLOAD_FOLDER name = None.
Proof.
  intros Hup Hc Hnd Hdoc Hids Hname.
  apply upload_document_200_inv in Hup
    as (file0 & c0 & text & [= <-] & _ & _ & Hc0 & _ & _ & Hstrip & Hbody & ->).
  rewrite Hc in Hc0. injection Hc0 as <-.
  injection Hbody as -> -> -> -> ->.
  set (name := secure_filename (file_filename file)) in *.
  set (new := imap (new_entry uuid4 name) (windows text)).
  assert (chunks_of uuid4 (c ++ new) = new) as Hch.
  { unfold chunks_of. rewrite filter_app.
    fold (chunks_of uuid4 c) (chunks_of uuid4 new).
    rewrite chunks_of_fresh by done. apply chunks_of_new_entries. }
  destruct (windows text) as [|chunk0 rest] eqn:Ewin.
  { exfalso. by apply (windows_nonempty text (strip_nonempty text Hstrip)). }
  assert (collection (world_after_upload secure_filename UPLOAD_FOLDER uuid4
                        text file c w) = Some (c ++ new)) as Hc1
    by (unfold world_after_upload; cbn [collection]; by rewrite Ewin).
  eexists.
  rewrite (delete_document_found UPLOAD_FOLDER uuid4 _ (c ++ new)
             (new_entry uuid4 name 0 chunk0) Hc1);
    [|by rewrite Hch|done].
  rewrite Hch. cbn [new_entry metadata filename collection upload_dir].
  split; [|split].
  - do 3 f_equal. unfold py_len. subst new. by rewrite !length_imap.
  - rewrite <- Hch at 2.
    rewrite collection_delete_chunks_of
      by (by apply new_entries_fresh_NoDup).
    f_equal. rewrite filter_app, (filter_all _ c) by done.
    rewrite (filter_none _ new); [by rewrite app_nil_r|].
    intros e He. subst new.
    apply elem_of_lookup_imap in He as (i & chunk & -> & _).
    intros H. by apply H.
  - apply lookup_delete_eq.
Qed.

(** X17. Deleting the same [doc_id] a second time is answered 404 and
    changes nothing, whatever the first deletion answered. *)
Theorem delete_document_twice (doc : str) (w : World) (c : list Entry) :
  collection w = Some c →
  delete_doc doc (delete_doc doc w).2
  = ((JError (lit "Document not found"), 404), (delete_doc doc w).2).
Proof.
  intros Hc.
  destruct (chunks_of doc c) as [|e0 rest] eqn:Ech.
  { rewrite (delete_document_not_found _ _ _ c Hc Ech). cbn [snd].
    by apply (delete_document_not_found _ _ _ c). }
  destruct (filename (metadata e0)) as [|ch name] eqn:Ename.
  - assert (delete_doc doc w = ((JError (lit "Document not found"), 404), w))
      as Hfirst.
    { unfold delete_document. rewrite Hc, find_filename_head, Ech.
      cbn [head fmap option_fmap option_map compose]. by rewrite Ename. }
    rewrite Hfirst. cbn [snd]. exact Hfirst.
  - rewrite (delete_document_found UPLOAD_FOLDER doc w c e0 Hc);
      [|by rewrite Ech|by rewrite Ename].
    cbn [snd]. eapply delete_document_not_found; [reflexivity|].
    apply chunks_of_collection_delete.
Qed.

End DocumentLifecycle.

Lemma unique_docs_loop_NoDup (metas : list Metadata)
    (acc : list (str * str)) :
  NoDup acc.*1 → NoDup (unique_docs_loop metas acc).*1.
Proof.
  revert acc. induction metas as [|m metas IH]; intros acc Hnd; [done|].
  cbn [unique_docs_loop]. apply IH.
  destruct (truthy (filename m) && truthy (doc_id m)) eqn:E1; [|done].
  cbn [andb]. case_bool_decide as Hin; [done|]. cbn [negb].
  rewrite fmap_app. apply NoDup_app. split; [done|].
  split; [|apply NoDup_singleton].
  intros x Hx Hx'. cbn in Hx'. apply list_elem_of_singleton in Hx' as ->.
  done.
Qed.

Lemma unique_docs_loop_sound (metas : list Metadata)
    (acc : list (str * str)) (d f : str) :
  (d, f) ∈ unique_docs_loop metas acc →
  (d, f) ∈ acc
  ∨ ∃ m, m ∈ metas ∧ doc_id m = d ∧ filename m = f ∧ d ≠ [] ∧ f ≠ [].
Proof.
  revert acc. induction metas as [|m metas IH]; intros acc Hin; [by left|].
  cbn [unique_docs_loop] in Hin. apply IH in Hin as [Hin|(m' & Hm' & ?)].
  - destruct (truthy (filename m)) eqn:E1; [|by left].
    destruct (truthy (doc_id m)) eqn:E2; [|by left]. cbn [andb] in Hin.
    destruct (negb _); [|by left].
    apply elem_of_app in Hin as [Hin|Hin]; [by left|].
    apply list_elem_of_singleton in Hin as [= -> ->].
    right. exists m. split; [by left|].
    apply truthy_true in E1, E2. done.
  - right. exists m'. split; [by right|done].
Qed.

Lemma unique_docs_loop_complete (metas : list Metadata)
    (acc : list (str * str)) (m : Metadata) :
  m ∈ metas → filename m ≠ [] → doc_id m ≠ [] →
  doc_id m ∈ (unique_docs_loop metas acc).*1.
Proof.
  revert acc. induction metas as [|m0 metas IH]; intros acc Hin Hf Hd;
    [by apply elem_of_nil in Hin|].
  cbn [unique_docs_loop]. apply elem_of_cons in Hin as [->|Hin];
    [|by apply IH].
  rewrite !(proj2 (truthy_true _)) by done. cbn [andb].
  assert (∀ acc', doc_id m0 ∈ acc'.*1 →
                  doc_id m0 ∈ (unique_docs_loop metas acc').*1) as Hkeep.
  { intros acc' H. apply list_elem_of_fmap in H as ([d f] & Heq & H).
    apply list_elem_of_fmap. exists (d, f).
    split; [done|by apply unique_docs_loop_keeps]. }
  case_bool_decide as Hseen; cbn [negb]; apply Hkeep; [done|].
  rewrite fmap_app. apply elem_of_app. right. by left.
Qed.

(** X18. On an initialised index the listing is answered 200; no [doc_id]
    is listed twice, every listed pair is the non-empty [doc_id] and
    file name of a stored record, and every stored record with a
    non-empty [doc_id] and file name has its [doc_id] listed. *)
Theorem list_documents_spec (w : World) (c : list Entry) :
  collection w = Some c →
  ∃ docs : list (str * str),
    list_documents w = (JDocuments docs, 200)
    ∧ NoDup docs.*1
    ∧ (∀ d f, (d, f) ∈ docs →
         d ≠ [] ∧ f ≠ []
         ∧ ∃ e, e ∈ c ∧ doc_id (metadata e) = d ∧ filename (metadata e) = f)
    ∧ (∀ e, e ∈ c →
         filename (metadata e) ≠ [] → doc_id (metadata e) ≠ [] →
         doc_id (metadata e) ∈ docs.*1).
Proof.
  intros Hc. unfold list_documents. rewrite Hc.
  eexists. split; [reflexivity|]. split; [|split].
  - apply unique_docs_loop_NoDup, NoDup_nil_2.
  - intros d f Hin. apply unique_docs_loop_sound in Hin
      as [Hin|(m & Hm & <- & <- & Hd & Hf)]; [by apply elem_of_nil in Hin|].
    apply list_elem_of_fmap in Hm as (e & -> & He). eauto 6.
  - intros e He Hf Hd. apply unique_docs_loop_complete; [|done..].
    by apply list_elem_of_fmap_2.
Qed.

Lemma collect_sources_NoDup (metas : list Metadata) (acc : list str) :
  NoDup acc → NoDup (collect_sources metas acc).
Proof.
  revert acc. induction metas as [|m metas IH]; intros acc Hnd; [done|].
  cbn [collect_sources]. apply IH. case_bool_decide as Hin; [done|].
  apply NoDup_app. split; [done|]. split; [|apply NoDup_singleton].
  intros x Hx Hx'. apply list_elem_of_singleton in Hx' as ->. done.
Qed.

Lemma collect_sources_elem (metas : list Metadata) (acc : list str)
    (f : str) :
  f ∈ collect_sources metas acc ↔ f ∈ acc ∨ f ∈ filename <$> metas.
Proof.
  revert acc. induction metas as [|m metas IH]; intros acc.
  - cbn. split; [by left|]. intros [H|H]; [done|by apply elem_of_nil in H].
  - cbn [collect_sources fmap list_fmap]. rewrite IH, elem_of_cons.
    case_bool_decide as Hin.
    + split; [intros [?|?]; auto|].
      intros [?|[->|?]]; auto.
    + rewrite elem_of_app, list_elem_of_singleton. tauto.
Qed.

Lemma join_nonempty (sep d : str) (ds : list str) :
  d ≠ [] → join sep (d :: ds) ≠ [].
Proof. intros Hd. destruct ds; cbn [join]; by destruct d. Qed.

Section ChatProperties.

Context (query : list Entry → str → nat → list Entry).
Context (model : option (str → Exc str)).

(** X19. With an initialised index and a non-empty context, [chat] is
    answered 200 whatever the model does; the sources hold no file name
    twice and are exactly the file names of the retrieved records. *)
Theorem chat_sources (question : str) (w : World) (c : list Entry) :
  collection w = Some c →
  context_of (query c question 5) ≠ [] →
  ∃ (answer : str) (sources : list str),
    chat query model (Body (Some question)) w = (JChat answer sources, 200)
    ∧ NoDup sources
    ∧ ∀ f, f ∈ sources ↔
           ∃ e, e ∈ query c question 5 ∧ filename (metadata e) = f.
Proof.
  intros Hc Hctx. unfold chat, query_chromadb. rewrite Hc.
  rewrite (proj2 (truthy_true _)) by done. cbn [negb].
  eexists _, _. split; [reflexivity|]. split.
  - apply collect_sources_NoDup, NoDup_nil_2.
  - intros f. rewrite collect_sources_elem, <- list_fmap_compose. split.
    + intros [H|H]; [by apply elem_of_nil in H|].
      apply list_elem_of_fmap in H as (e & -> & He). eauto.
    + intros (e & He & <-). right.
      by apply (list_elem_of_fmap_2 (filename ∘ metadata)).
Qed.


(** X21. When the retrieved documents are not empty, [chat] gives the
    canned no-documents answer exactly when the query retrieves no
    record. *)
Theorem chat_no_documents_iff (question : str) (w : World) (c : list Entry) :
  collection w = Some c →
  (∀ e, e ∈ query c question 5 → document e ≠ []) →
  chat query model (Body (Some question)) w
  = (JChat (lit "I don't have any documents to reference. Please upload a PDF document first.") [],
     200)
  ↔ query c question 5 = [].
Proof.
  intros Hc Hdocs. unfold chat, query_chromadb. rewrite Hc. split.
  - destruct (query c question 5) as [|e rest] eqn:E; [done|].
    assert (context_of (e :: rest) ≠ []) as Hctx.
    { unfold context_of. cbn [fmap list_fmap truthy].
      apply join_nonempty, Hdocs. by left. }
    rewrite (proj2 (truthy_true _)) by done. cbn [negb].
    assert (filename (metadata e) ∈ collect_sources (metadata <$> e :: rest) [])
      as Hin.
    { apply collect_sources_elem. right. rewrite <- list_fmap_compose.
      apply (list_elem_of_fmap_2 (filename ∘ metadata)). by left. }
    revert Hin. generalize (collect_sources (metadata <$> e :: rest) []).
    intros sources Hin [= _ ->]. by apply elem_of_nil in Hin.
  - by intros ->.
Qed.

End ChatProperties.

(** X22. Without a configured model, a chat with a non-empty context is
    answered 200 with the fixed text that names the missing
    [GEMINI_API_KEY], next to the sources of the retrieved records. *)
Theorem chat_without_model (query : list Entry → str → nat → list Entry)
    (question : str) (w : World) (c : list Entry) :
  collection w = Some c →
  context_of (query c question 5%nat) ≠ [] →
  chat query None (Body (Some question)) w
  = (JChat (lit "Error: Gemini API is not configured. Please set GEMINI_API_KEY environment variable.")
       (collect_sources (metadata <$> query c question 5%nat) []), 200).
Proof.
  intros Hc Hctx. unfold chat, query_chromadb. rewrite Hc.
  by rewrite (proj2 (truthy_true _)) by done.
Qed.

(** X23. With an index that is not initialised the handlers disagree:
    the listing is answered 200 with no document, while a deletion and
    a chat with a question are answered 500, each with its own message,
    and nothing is changed. *)
Theorem uninitialised_index_answers
    (query : list Entry → str → nat → list Entry)
    (model : option (str → Exc str)) (UPLOAD_FOLDER question doc : str)
    (w : World) :
  collection w = None →
  list_documents w = (JDocuments [], 200)
  ∧ delete_document UPLOAD_FOLDER doc w
    = ((JError (lit "ChromaDB not initialized"), 500), w)
  ∧ chat query model (Body (Some question)) w
    = (JError (lit "ChromaDB collection not initialized"), 500).
Proof.
  intros Hc. unfold list_documents, delete_document, chat, query_chromadb.
  by rewrite Hc.
Qed.

(** ** Concrete runs of the further properties *)

Lemma names_unique_nil : names_unique [].
Proof. intros e1 e2 H. by apply elem_of_nil in H. Qed.

Lemma upload_failure_keeps_index_witness :
  collection (sample_world "a.pdf") = collection (sample_world "a.pdf")
  ∧ ∃ msg, JError duplicate_message = JError msg.
Proof.
  apply (upload_failure_keeps_index secure_filename_ascii ascii_lower uploads
           other_doc_id (Some (sample_file "a.pdf")) (sample_world "a.pdf")
           (sample_world "a.pdf") (JError duplicate_message) 400).
  - reflexivity.
  - lia.
Defined.

Lemma upload_error_keeps_file_witness :
  upload_dir
    (set_upload_dir empty_world (<[lit "uploads/b.pdf" := broken_pdf]> ∅))
    !! os_path_join uploads (secure_filename_ascii (lit "b.pdf"))
  = Some broken_pdf
  ∧ collection
      (set_upload_dir empty_world (<[lit "uploads/b.pdf" := broken_pdf]> ∅))
    = collection empty_world.
Proof.
  apply (upload_error_keeps_file secure_filename_ascii ascii_lower uploads
           sample_doc_id
           {| file_filename := lit "b.pdf"; file_content := broken_pdf |}
           empty_world _ (JError (lit "EOF marker not found"))).
  reflexivity.
Defined.

Lemma upload_touches_one_path_witness :
  upload_dir (sample_world "a.pdf") !! lit "uploads/other.pdf"
  = upload_dir empty_world !! lit "uploads/other.pdf".
Proof.
  apply (upload_touches_one_path secure_filename_ascii ascii_lower uploads
           sample_doc_id (sample_file "a.pdf") empty_world
           (sample_world "a.pdf")
           (JUpload (lit "Document uploaded and processed successfully")
              (lit "a.pdf") sample_doc_id 1 74, 200)).
  - apply sample_upload; [discriminate|vm_compute; reflexivity].
  - vm_compute. discriminate.
Defined.

Lemma upload_blank_text_witness :
  ∃ w' : World,
    upload_document secure_filename_ascii ascii_lower uploads sample_doc_id
      (Some {| file_filename := lit "blank.pdf"; file_content := blank_pdf |})
      empty_world
    = Some ((JError (lit "No text could be extracted from PDF"), 400), w')
    ∧ collection w' = collection empty_world
    ∧ upload_dir w'
        !! os_path_join uploads (secure_filename_ascii (lit "blank.pdf"))
      = None.
Proof.
  apply (upload_blank_text secure_filename_ascii ascii_lower uploads
           sample_doc_id (lit "   " ++ newline)
           {| file_filename := lit "blank.pdf"; file_content := blank_pdf |}
           empty_world).
  - vm_compute. reflexivity.
  - reflexivity.
  - vm_compute. reflexivity.
  - vm_compute. reflexivity.
Defined.

Lemma upload_without_index_witness :
  upload_document secure_filename_ascii ascii_lower uploads sample_doc_id
    (Some (sample_file "a.pdf")) uninitialised_world
  = Some ((JError (lit "ChromaDB collection not initialized"), 500),
          {| collection := None;
             upload_dir :=
               <[os_path_join uploads (secure_filename_ascii (lit "a.pdf"))
                 := text_pdf sample_text]> ∅ |}).
Proof.
  apply (upload_without_index secure_filename_ascii ascii_lower uploads
           sample_doc_id (sample_text ++ newline) (sample_file "a.pdf")
           uninitialised_world).
  - reflexivity.
  - vm_compute. reflexivity.
  - vm_compute. reflexivity.
  - vm_compute. discriminate.
Defined.

Lemma upload_response_fields_witness :
  sample_doc_id = sample_doc_id
  ∧ 1 ≤ 74
  ∧ 1 = ceil_div 74 800
  ∧ 1 ≤ 1
  ∧ ∃ c new : list Entry,
      collection empty_world = Some c
      ∧ collection (sample_world "a.pdf") = Some (c ++ new)
      ∧ py_len new = 1.
Proof.
  apply (upload_response_fields secure_filename_ascii ascii_lower uploads
           sample_doc_id (sample_file "a.pdf") empty_world
           (sample_world "a.pdf")
           (lit "Document uploaded and processed successfully")
           (lit "a.pdf")).
  apply sample_upload; [discriminate|vm_compute; reflexivity].
Defined.

Lemma upload_keeps_names_unique_witness :
  ∃ c', collection (sample_world "a.pdf") = Some c' ∧ names_unique c'.
Proof.
  apply (upload_keeps_names_unique secure_filename_ascii ascii_lower uploads
           sample_doc_id (Some (sample_file "a.pdf")) empty_world
           (sample_world "a.pdf")
           (JUpload (lit "Document uploaded and processed successfully")
              (lit "a.pdf") sample_doc_id 1 74, 200) []).
  - apply sample_upload; [discriminate|vm_compute; reflexivity].
  - reflexivity.
  - apply names_unique_nil.
Defined.


Lemma upload_then_delete_witness :
  ∃ w2 : World,
    delete_document uploads sample_doc_id (sample_world "a.pdf")
    = ((JDelete (lit "Document deleted successfully") (lit "a.pdf") 1, 200), w2)
    ∧ collection w2 = Some []
    ∧ upload_dir w2 !! os_path_join uploads (lit "a.pdf") = None.
Proof.
  apply (upload_then_delete secure_filename_ascii ascii_lower uploads
           sample_doc_id (sample_file "a.pdf") empty_world
           (sample_world "a.pdf") []
           (lit "Document uploaded and processed successfully")
           (lit "a.pdf") sample_doc_id 1 74).
  - apply sample_upload; [discriminate|vm_compute; reflexivity].
  - reflexivity.
  - apply NoDup_nil_2.
  - intros e He. exfalso. eapply not_elem_of_nil, He.
  - intros e i He. exfalso. eapply not_elem_of_nil, He.
  - discriminate.
Defined.

Lemma delete_document_twice_witness :
  delete_document uploads sample_doc_id
    (delete_document uploads sample_doc_id (sample_world "a.pdf")).2
  = ((JError (lit "Document not found"), 404),
     (delete_document uploads sample_doc_id (sample_world "a.pdf")).2).
Proof.
  apply (delete_document_twice uploads sample_doc_id (sample_world "a.pdf")
           [new_entry sample_doc_id (lit "a.pdf") 0 (sample_text ++ newline)]).
  reflexivity.
Defined.

Lemma list_documents_spec_witness :
  ∃ docs : list (list N * list N),
    list_documents (sample_world "a.pdf") = (JDocuments docs, 200)
    ∧ NoDup docs.*1
    ∧ (∀ d f, (d, f) ∈ docs →
         d ≠ [] ∧ f ≠ []
         ∧ ∃ e, e ∈ [new_entry sample_doc_id (lit "a.pdf") 0
                       (sample_text ++ newline)]
                ∧ doc_id (metadata e) = d ∧ filename (metadata e) = f)
    ∧ (∀ e, e ∈ [new_entry sample_doc_id (lit "a.pdf") 0
                   (sample_text ++ newline)] →
         filename (metadata e) ≠ [] → doc_id (metadata e) ≠ [] →
         doc_id (metadata e) ∈ docs.*1).
Proof.
  apply (list_documents_spec (sample_world "a.pdf")). reflexivity.
Defined.

Lemma chat_sources_witness :
  ∃ (answer : list N) (sources : list (list N)),
    chat first_records (Some failing_model) (Body (Some (lit "What is RAG?")))
      (sample_world "a.pdf")
    = (JChat answer sources, 200)
    ∧ NoDup sources
    ∧ ∀ f, f ∈ sources ↔
           ∃ e, e ∈ first_records
                      [new_entry sample_doc_id (lit "a.pdf") 0
                         (sample_text ++ newline)] (lit "What is RAG?") 5
                ∧ filename (metadata e) = f.
Proof.
  apply (chat_sources first_records (Some failing_model) (lit "What is RAG?")
           (sample_world "a.pdf")).
  - reflexivity.
  - vm_compute. discriminate.
Defined.

Lemma chat_no_documents_iff_witness :
  chat first_records (Some failing_model) (Body (Some (lit "What is RAG?")))
    empty_world
  = (JChat (lit "I don't have any documents to reference. Please upload a PDF document first.") [],
     200)
  ↔ first_records [] (lit "What is RAG?") 5 = [].
Proof.
  apply (chat_no_documents_iff first_records (Some failing_model)
           (lit "What is RAG?") empty_world []).
  - reflexivity.
  - intros e He. exfalso. eapply not_elem_of_nil, He.
Defined.

Lemma chat_without_model_witness :
  chat first_records None (Body (Some (lit "What is RAG?")))
    (sample_world "a.pdf")
  = (JChat (lit "Error: Gemini API is not configured. Please set GEMINI_API_KEY environment variable.")
       (collect_sources
          (metadata <$> first_records
                          [new_entry sample_doc_id (lit "a.pdf") 0
                             (sample_text ++ newline)] (lit "What is RAG?") 5)
          []), 200).
Proof.
  apply (chat_without_model first_records (lit "What is RAG?")
           (sample_world "a.pdf")).
  - reflexivity.
  - vm_compute. discriminate.
Defined.

Lemma uninitialised_index_answers_witness :
  list_documents uninitialised_world = (JDocuments [], 200)
  ∧ delete_document uploads sample_doc_id uninitialised_world
    = ((JError (lit "ChromaDB not initialized"), 500), uninitialised_world)
  ∧ chat first_records None (Body (Some (lit "What is RAG?")))
      uninitialised_world
    = (JError (lit "ChromaDB collection not initialized"), 500).
Proof. apply uninitialised_index_answers. reflexivity. Defined.

(** ** More on extraction, deletion and re-upload *)

Lemma ocr_pages_ok (pages : list str) (acc : str) :
  ocr_pages (Ok <$> pages) acc
  = Ok (acc ++ mjoin ((λ p, p ++ newline) <$> pages)).
Proof.
  revert acc. induction pages as [|p pages IH]; intros acc.
  - cbn. by rewrite app_nil_r.
  - cbn [fmap list_fmap ocr_pages mjoin list_join]. rewrite IH.
    by rewrite <- !app_assoc.
Qed.

(** X24. When the OCR route opens the document, reads every page and
    closes it, its text is the concatenation, in page order, of all page
    texts, each followed by one line feed: unlike the primary pass, a
    page without text still contributes its line feed. *)
Theorem ocr_pass_text (pdf : Pdf) (pages : list str) :
  ocr_layer pdf = Ok (Ok <$> pages) →
  ocr_close pdf = Ok () →
  ocr_pass pdf = Ok (mjoin ((λ p, p ++ newline) <$> pages)).
Proof.
  intros Hl Hc. unfold ocr_pass. rewrite Hl. cbn [exc_bind].
  rewrite ocr_pages_ok, Hc. done.
Qed.

Lemma ocr_pass_text_witness :
  ocr_pass {| text_layer := Ok [];
              ocr_layer := Ok [Ok (lit "one"); Ok []; Ok (lit "two")];
              ocr_close := Ok () |}
  = Ok (lit "one" ++ newline ++ newline ++ lit "two" ++ newline).
Proof.
  apply (ocr_pass_text _ [lit "one"; []; lit "two"]); reflexivity.
Defined.

(** X25. A deletion answered 200 has removed at least one chunk: the
    index was initialised, the reported [chunks_deleted] is the number
    of stored chunks carrying the [doc_id], which is at least 1, and the
    reported file name is the non-empty name of the first of them. *)
Theorem delete_document_200 (UPLOAD_FOLDER doc : str) (w w' : World)
    (message name : str) (n : Z) :
  delete_document UPLOAD_FOLDER doc w = ((JDelete message name n, 200), w') →
  ∃ (c : list Entry) (e : Entry),
    collection w = Some c
    ∧ head (chunks_of doc c) = Some e
    ∧ name = filename (metadata e) ∧ name ≠ []
    ∧ n = py_len (chunks_of doc c) ∧ 1 ≤ n.
Proof.
  intros Hdel. destruct (collection w) as [c|] eqn:Hc.
  2:{ unfold delete_document in Hdel. rewrite Hc in Hdel. discriminate. }
  destruct (chunks_of doc c) as [|e rest] eqn:Ech.
  { rewrite (delete_document_not_found _ _ _ c Hc Ech) in Hdel.
    discriminate. }
  destruct (filename (metadata e)) as [|ch nm] eqn:Ename.
  { unfold delete_document in Hdel.
    rewrite Hc, find_filename_head, Ech in Hdel.
    cbn [head fmap option_fmap option_map compose] in Hdel.
    rewrite Ename in Hdel. discriminate. }
  rewrite (delete_document_found UPLOAD_FOLDER doc w c e Hc) in Hdel;
    [|by rewrite Ech|by rewrite Ename].
  rewrite Ech, Ename in Hdel. injection Hdel as <- <- <- <-.
  exists c, e. rewrite Ech. repeat split; try done.
  unfold py_len. cbn [length]. lia.
Qed.

Lemma delete_document_200_witness :
  ∃ (c : list Entry) (e : Entry),
    collection (sample_world "a.pdf") = Some c
    ∧ head (chunks_of sample_doc_id c) = Some e
    ∧ lit "a.pdf" = filename (metadata e) ∧ lit "a.pdf" ≠ []
    ∧ 1 = py_len (chunks_of sample_doc_id c) ∧ 1 ≤ 1.
Proof.
  apply (delete_document_200 uploads sample_doc_id (sample_world "a.pdf")
           {| collection := Some []; upload_dir := ∅ |}
           (lit "Document deleted successfully")).
  vm_compute. reflexivity.
Defined.

Lemma extract_at_saved (d d' : gmap (list N) Pdf) (p p' : str) (pdf : Pdf) :
  extract_text_from_pdf (<[p := pdf]> d) p
  = extract_text_from_pdf (<[p' := pdf]> d') p'.
Proof. unfold extract_text_from_pdf. by rewrite !lookup_insert_eq. Qed.

Section SameContent.

Context (secure_filename lower : str → str).
Context (UPLOAD_FOLDER : str).

Local Abbreviation upload := (upload_document secure_filename lower UPLOAD_FOLDER).

(** X26. Duplicates are detected by name, not by content: after a
    successful upload, the same file content sent under another allowed
    raw name whose sanitised name is not stored is accepted again, with
    the same [chunks] and [text_length]. *)
Theorem upload_same_content_other_name (uuid4 uuid4' raw' : str)
    (file : FileStorage) (w w1 : World) (c : list Entry)
    (message name doc : str) (chunks text_length : Z) :
  upload uuid4 (Some file) w
  = Some ((JUpload message name doc chunks text_length, 200), w1) →
  collection w = Some c →
  allowed_file lower raw' = true →
  secure_filename raw' ≠ secure_filename (file_filename file) →
  (∀ e, e ∈ c → filename (metadata e) ≠ secure_filename raw') →
  ∃ w2 : World,
    upload uuid4'
      (Some {| file_filename := raw'; file_content := file_content file |}) w1
    = Some ((JUpload message (secure_filename raw') uuid4' chunks text_length,
             200), w2).
Proof.
  intros Hup Hc Hal Hother Hfree.
  apply upload_document_200_inv in Hup
    as (file0 & c0 & text & [= <-] & _ & _ & Hc0 & _ & Hext & Hstrip & Hbody & ->).
  rewrite Hc in Hc0. injection Hc0 as <-.
  injection Hbody as -> -> -> -> ->.
  eexists.
  apply (upload_document_ok secure_filename lower UPLOAD_FOLDER uuid4' text
           {| file_filename := raw'; file_content := file_content file |} _
           (c ++ imap (new_entry uuid4 (secure_filename (file_filename file)))
                  (windows text))).
  - by eapply allowed_file_nonempty.
  - done.
  - reflexivity.
  - intros e He. apply elem_of_app in He as [He|He]; [by apply Hfree|].
    apply elem_of_lookup_imap in He as (i & chunk & -> & _).
    cbn. congruence.
  - cbn [file_filename file_content]. rewrite <- Hext. apply extract_at_saved.
  - done.
Qed.

End SameContent.

Lemma upload_same_content_other_name_witness :
  ∃ w2 : World,
    upload_document secure_filename_ascii ascii_lower uploads other_doc_id
      (Some {| file_filename := lit "copy.pdf";
               file_content := file_content (sample_file "a.pdf") |})
      (sample_world "a.pdf")
    = Some ((JUpload (lit "Document uploaded and processed successfully")
               (secure_filename_ascii (lit "copy.pdf")) other_doc_id 1 74,
             200), w2).
Proof.
  apply (upload_same_content_other_name secure_filename_ascii ascii_lower
           uploads sample_doc_id other_doc_id (lit "copy.pdf")
           (sample_file "a.pdf") empty_world (sample_world "a.pdf") []
           (lit "Document uploaded and processed successfully")
           (lit "a.pdf") sample_doc_id).
  - apply sample_upload; [discriminate|vm_compute; reflexivity].
  - reflexivity.
  - vm_compute. reflexivity.
  - vm_compute. discriminate.
  - intros e He. exfalso. eapply not_elem_of_nil, He.
Defined.
